(** * Expense tracker: a shallow embedding of [main.go] and its properties

    The Go program keeps a flat list of [Expense] records in one JSON file
    ([expense.json]).  Every HTTP handler loads the whole list, works on it
    and, for a mutation, writes the whole list back.

    Modelling choices
    - Go's [int] is the 64-bit two's-complement integer of the usual
      targets: a [Z] in [MinInt .. MaxInt], with [+] wrapping around.
    - A slice [[]Expense] is a [list Expense]; indexing is stdpp's list
      lookup, [expenses[:i]] is [take i], [expenses[i+1:]] is [drop (S i)].
      The nil slice and the empty slice are the same list.
    - [time.Time] is an instant, a [Z] (nanoseconds); [time.Now()] reads
      the next value of a clock, so two calls give two readings.
    - The file system is the state of the one file the program touches.
      [os.WriteFile] opens the file truncating it and then writes: a write
      that fails at the open leaves the file as it was, a write that fails
      later leaves it empty or partial, which no longer decodes.
    - [encoding/json] and [strconv] are library code: the codec is a
      parameter of the development, the results of decoding a request
      are fields of the request. *)

From stdpp Require Import base numbers list strings.

Local Open Scope Z_scope.

(** ** Go's [int] *)

Module GoInt.

Definition MaxInt : Z := 2 ^ 63 - 1.
Definition MinInt : Z := - 2 ^ 63.

Definition in_range (z : Z) : Prop := MinInt ≤ z ≤ MaxInt.

(** Reduction of a mathematical integer to its 64-bit signed value. *)
Definition wrap (z : Z) : Z := (z + 2 ^ 63) `mod` 2 ^ 64 - 2 ^ 63.

(** [a + b] on [int]. *)
Definition add (a b : Z) : Z := wrap (a + b).

End GoInt.

(** ** The record *)

Definition Time : Type := Z.

Record Expense : Type := mkExpense {
  ID : Z;
  Description : string;
  Amount : Z;
  CreatedAt : Time;
  UpdatedAt : Time
}.

#[global] Instance Expense_eq_dec : EqDecision Expense.
Proof. solve_decision. Defined.

(** The value of [var expense Expense]. *)
Definition zeroExpense : Expense := mkExpense 0 "" 0 0 0.

(** Assignments to one field: [e.ID = id] and the like. *)
Definition set_ID (id : Z) (e : Expense) : Expense :=
  mkExpense id (Description e) (Amount e) (CreatedAt e) (UpdatedAt e).
Definition set_Description (d : string) (e : Expense) : Expense :=
  mkExpense (ID e) d (Amount e) (CreatedAt e) (UpdatedAt e).
Definition set_Amount (a : Z) (e : Expense) : Expense :=
  mkExpense (ID e) (Description e) a (CreatedAt e) (UpdatedAt e).
Definition set_CreatedAt (t : Time) (e : Expense) : Expense :=
  mkExpense (ID e) (Description e) (Amount e) t (UpdatedAt e).
Definition set_UpdatedAt (t : Time) (e : Expense) : Expense :=
  mkExpense (ID e) (Description e) (Amount e) (CreatedAt e) t.

Definition ids (expenses : list Expense) : list Z := ID <$> expenses.

(** ** [generateUniqueID] *)

(** The loop [maxID := 0; for ... { if expense.ID > maxID { maxID = expense.ID } }]. *)
Definition maxID_loop (expenses : list Expense) : Z :=
  foldl (λ maxID expense, if bool_decide (ID expense > maxID) then ID expense else maxID)
        0 expenses.

Definition generateUniqueID (expenses : list Expense) : Z :=
  GoInt.add (maxID_loop expenses) 1.

(** The formula of the specification, [1 + max(existing ids, default 0)],
    over the mathematical integers: the default is the value for the
    empty collection. *)
Definition max_default (d : Z) (zs : list Z) : Z :=
  match zs with
  | [] => d
  | z :: zs' => foldl Z.max z zs'
  end.

Definition spec_next_id (expenses : list Expense) : Z :=
  1 + max_default 0 (ids expenses).

(** ** The scans of update and delete *)

(** Index of the first record whose [ID] is [id]: the [for i, expense :=
    range expenses] loop up to its [break]; [None] is [found == false]. *)
Fixpoint find_index (id : Z) (expenses : list Expense) : option nat :=
  match expenses with
  | [] => None
  | expense :: rest =>
      if bool_decide (ID expense = id) then Some 0%nat
      else S <$> find_index id rest
  end.

(** The three assignments to [expenses[i]] in the update loop. *)
Definition update_fields (updatedExpense : Expense) (now : Time) (e : Expense) : Expense :=
  set_UpdatedAt now
    (set_Amount (Amount updatedExpense)
       (set_Description (Description updatedExpense) e)).

(** [append(expenses[:i], expenses[i+1:]...)]. *)
Definition remove_at (i : nat) (expenses : list Expense) : list Expense :=
  take i expenses ++ drop (S i) expenses.

(** The loop of the summary handler: [totalSum += expense.Amount]. *)
Definition totalSum_loop (expenses : list Expense) : Z :=
  foldl (λ totalSum expense, GoInt.add totalSum (Amount expense)) 0 expenses.

(** The mathematical sum of the amounts. *)
Definition sum_amounts (expenses : list Expense) : Z :=
  foldr (λ e s, Amount e + s) 0 expenses.

(** ** The environment: library calls and the file *)

(** [json.Unmarshal] and [json.MarshalIndent] at type [[]Expense] ([None]
    is a non-nil [error]) and the readings of [time.Now()].

    [json_isNull data] says that the document is the JSON value [null]:
    [json.Unmarshal] then leaves the slice nil, and the body of List is
    [null] where it is [[]] for the empty slice.  Lists do not tell the
    two apart, so a statement that compares the responses of List on an
    empty collection excludes such documents.

    [os_writeFailureTruncates] says how a failing [os.WriteFile] fails:
    after the open has truncated the file ([true]: disk full, I/O error)
    or at the open ([false]: permission refused). *)
Class Runtime (Doc : Type) : Type := {
  json_Unmarshal : Doc → option (list Expense);
  json_MarshalIndent : list Expense → option Doc;
  time_clock : nat → Time;
  json_isNull : Doc → bool;
  os_writeFailureTruncates : bool
}.

(** What [os.Stat], [os.ReadFile] and [os.WriteFile] see of [expense.json].
    [Truncated] is the file a write left empty or partial: it can be read
    and does not decode. *)
Inductive FileState (Doc : Type) : Type :=
  | Absent
  | Unreadable
  | Present (data : Doc)
  | Truncated.
Arguments Absent {Doc}.
Arguments Unreadable {Doc}.
Arguments Present {Doc} data.
Arguments Truncated {Doc}.

Record World (Doc : Type) : Type := mkWorld {
  expenseFile : FileState Doc;
  writable : bool;
  ticks : nat
}.
Arguments mkWorld {Doc} _ _ _.
Arguments expenseFile {Doc} _.
Arguments writable {Doc} _.
Arguments ticks {Doc} _.

Inductive error : Type :=
  | ReadFileError
  | UnmarshalError
  | MarshalError
  | WriteFileError.

(** ** Requests and responses *)

Inductive Method : Type := GET | POST | PUT | DELETE | PATCH.

#[global] Instance Method_eq_dec : EqDecision Method.
Proof. solve_decision. Defined.

(** A request as the handlers use it: the method, the result of
    [strconv.Atoi] on the rest of the path, the result of decoding the body
    into a zero [Expense]. *)
Record Request : Type := mkRequest {
  rMethod : Method;
  rPathID : option Z;
  rBody : option Expense
}.

Inductive Response : Type :=
  | HttpError (status : Z) (message : string)
  | Created (expense : Expense)
  | OkExpenses (expenses : list Expense)
  | OkTotal (total : Z)
  | NoContent.

Definition StatusBadRequest : Z := 400.
Definition StatusNotFound : Z := 404.
Definition StatusMethodNotAllowed : Z := 405.
Definition StatusInternalServerError : Z := 500.

Inductive Route : Type :=
  | RouteList
  | RouteAdd
  | RouteSummary
  | RouteUpdate
  | RouteDelete.

(** ** The program *)

Section Program.
Context {Doc : Type} {RT : Runtime Doc}.

Definition time_Now (w : World Doc) : Time * World Doc :=
  (time_clock (ticks w),
   mkWorld (expenseFile w) (writable w) (S (ticks w))).

(** The world after an [os.WriteFile] that returned an error. *)
Definition failed_write (w : World Doc) : World Doc :=
  if os_writeFailureTruncates
  then mkWorld Truncated (writable w) (ticks w)
  else w.

Definition os_WriteFile (data : Doc) (w : World Doc) : option error * World Doc :=
  if writable w
  then (None, mkWorld (Present data) (writable w) (ticks w))
  else (Some WriteFileError, failed_write w).

Definition loadExpenses (w : World Doc) : error + list Expense :=
  match expenseFile w with
  | Absent => inr []
  | Unreadable => inl ReadFileError
  | Present data =>
      match json_Unmarshal data with
      | None => inl UnmarshalError
      | Some expenses => inr expenses
      end
  | Truncated => inl UnmarshalError
  end.

Definition saveExpenses (expenses : list Expense) (w : World Doc)
  : option error * World Doc :=
  match json_MarshalIndent expenses with
  | None => (Some MarshalError, w)
  | Some data => os_WriteFile data w
  end.

Definition addExpenseHandler (r : Request) (w : World Doc) : Response * World Doc :=
  if bool_decide (rMethod r ≠ POST)
  then (HttpError StatusMethodNotAllowed "Only POST requests allowed", w)
  else
    match rBody r with
    | None => (HttpError StatusBadRequest "Invalid input", w)
    | Some expense =>
        match loadExpenses w with
        | inl _ => (HttpError StatusInternalServerError "Error loading expenses", w)
        | inr expenses =>
            let expense := set_ID (generateUniqueID expenses) expense in
            let '(now, w1) := time_Now w in
            let expense := set_CreatedAt now expense in
            let '(now, w2) := time_Now w1 in
            let expense := set_UpdatedAt now expense in
            let expenses := expenses ++ [expense] in
            match saveExpenses expenses w2 with
            | (Some _, w3) =>
                (HttpError StatusInternalServerError "Error saving expense", w3)
            | (None, w3) => (Created expense, w3)
            end
        end
    end.

Definition listExpensesHandler (r : Request) (w : World Doc) : Response * World Doc :=
  if bool_decide (rMethod r ≠ GET)
  then (HttpError StatusMethodNotAllowed "Only GET requests allowed", w)
  else
    match loadExpenses w with
    | inl _ => (HttpError StatusInternalServerError "Error loading expenses", w)
    | inr expenses => (OkExpenses expenses, w)
    end.

Definition summaryExpensesHandler (r : Request) (w : World Doc) : Response * World Doc :=
  if bool_decide (rMethod r ≠ GET)
  then (HttpError StatusMethodNotAllowed "Only GET requests allowed", w)
  else
    match loadExpenses w with
    | inl _ => (HttpError StatusInternalServerError "Error loading expenses", w)
    | inr expenses => (OkTotal (totalSum_loop expenses), w)
    end.

Definition updateExpenseHandler (r : Request) (w : World Doc) : Response * World Doc :=
  if bool_decide (rMethod r ≠ PUT)
  then (HttpError StatusMethodNotAllowed "Only PUT requests allowed", w)
  else
    match rPathID r with
    | None => (HttpError StatusBadRequest "Invalid expense ID", w)
    | Some id =>
        match rBody r with
        | None => (HttpError StatusBadRequest "Invalid input", w)
        | Some updatedExpense =>
            match loadExpenses w with
            | inl _ =>
                (HttpError StatusInternalServerError "Error loading expenses", w)
            | inr expenses =>
                match find_index id expenses with
                | None => (HttpError StatusNotFound "Expense not found", w)
                | Some i =>
                    let '(now, w1) := time_Now w in
                    let expenses := alter (update_fields updatedExpense now) i expenses in
                    match saveExpenses expenses w1 with
                    | (Some _, w2) =>
                        (HttpError StatusInternalServerError "Error saving expenses", w2)
                    | (None, w2) => (OkExpenses expenses, w2)
                    end
                end
            end
        end
    end.

Definition deleteExpenseHandler (r : Request) (w : World Doc) : Response * World Doc :=
  if bool_decide (rMethod r ≠ DELETE)
  then (HttpError StatusMethodNotAllowed "Only DELETE requests allowed", w)
  else
    match rPathID r with
    | None => (HttpError StatusBadRequest "Invalid expense ID", w)
    | Some id =>
        match loadExpenses w with
        | inl _ => (HttpError StatusInternalServerError "Error loading expenses", w)
        | inr expenses =>
            match find_index id expenses with
            | None => (HttpError StatusNotFound "Expense not found", w)
            | Some i =>
                let expenses := remove_at i expenses in
                match saveExpenses expenses w with
                | (Some _, w1) =>
                    (HttpError StatusInternalServerError "Error saving expenses", w1)
                | (None, w1) => (NoContent, w1)
                end
            end
        end
    end.

(** The routing table of [main]. *)
Definition serve (route : Route) : Request → World Doc → Response * World Doc :=
  match route with
  | RouteList => listExpensesHandler
  | RouteAdd => addExpenseHandler
  | RouteSummary => summaryExpensesHandler
  | RouteUpdate => updateExpenseHandler
  | RouteDelete => deleteExpenseHandler
  end.

(** A run of the server on a sequence of requests. *)
Fixpoint serve_all (reqs : list (Route * Request)) (w : World Doc)
  : list Response * World Doc :=
  match reqs with
  | [] => ([], w)
  | (route, r) :: reqs' =>
      let '(resp, w1) := serve route r w in
      let '(resps, w2) := serve_all reqs' w1 in
      (resp :: resps, w2)
  end.

End Program.

(** ** Vocabulary of the statements *)

(** Requests of the five routes. *)
Definition getRequest : Request := mkRequest GET None None.
Definition postRequest (payload : Expense) : Request := mkRequest POST None (Some payload).
Definition putRequest (id : Z) (payload : Expense) : Request :=
  mkRequest PUT (Some id) (Some payload).
Definition deleteRequest (id : Z) : Request := mkRequest DELETE (Some id) None.

(** A run of Create calls, one per payload. *)
Definition create_requests (payloads : list Expense) : list (Route * Request) :=
  (λ payload, (RouteAdd, postRequest payload)) <$> payloads.

(** The contract of [encoding/json] the sequences of operations rely on:
    what was written is read back, and every collection can be written. *)
Definition codec_round_trip {Doc : Type} {RT : Runtime Doc} : Prop :=
  ∀ (expenses : list Expense) (data : Doc),
    json_MarshalIndent expenses = Some data → json_Unmarshal data = Some expenses.

Definition marshal_total {Doc : Type} {RT : Runtime Doc} : Prop :=
  ∀ expenses : list Expense, is_Some (json_MarshalIndent (Doc := Doc) expenses).

(** Two worlds a client cannot tell apart: the same result of loading,
    the same permission to write, the same clock position. *)
Definition same_collection {Doc : Type} {RT : Runtime Doc} (w1 w2 : World Doc) : Prop :=
  loadExpenses w1 = loadExpenses w2 ∧
  writable w1 = writable w2 ∧
  ticks w1 = ticks w2.

(** The record [addExpenseHandler] builds from the decoded payload. *)
Definition new_expense {Doc : Type} {RT : Runtime Doc}
    (expenses : list Expense) (payload : Expense) (w : World Doc) : Expense :=
  {| ID := generateUniqueID expenses;
     Description := Description payload;
     Amount := Amount payload;
     CreatedAt := time_clock (ticks w);
     UpdatedAt := time_clock (S (ticks w)) |}.

(** The expenses with the ids [1 .. n], used as test data. *)
Definition expenseWithID (id : Z) : Expense := mkExpense id "" 0 0 0.
Definition expenseWithAmount (id amount : Z) : Expense := mkExpense id "" amount 0 0.

(** Routes that only read the store. *)
Definition read_only (route : Route) : bool :=
  match route with
  | RouteList | RouteSummary => true
  | RouteAdd | RouteUpdate | RouteDelete => false
  end.

(** A clock that never goes back. *)
Definition clock_monotone {Doc : Type} {RT : Runtime Doc} : Prop :=
  ∀ i j : nat, (i ≤ j)%nat → time_clock i ≤ time_clock j.

(** Every record was created no later than it was last updated, and last
    updated no later than the clock reading number [n]. *)
Definition stamped_before {Doc : Type} {RT : Runtime Doc}
    (n : nat) (expenses : list Expense) : Prop :=
  Forall (λ e, CreatedAt e ≤ UpdatedAt e ∧ UpdatedAt e ≤ time_clock n) expenses.

(** How many records carry the id. *)
Definition count_id (id : Z) (expenses : list Expense) : nat :=
  length (filter (λ e, ID e = id) expenses).

(** ** A concrete runtime

    The document is the list of records itself and the clock counts the
    calls of [time.Now()].  It is used to run the handlers on concrete
    inputs. *)
Definition plainRuntime : Runtime (list Expense) :=
  {| json_Unmarshal := λ data, Some data;
     json_MarshalIndent := λ expenses, Some expenses;
     time_clock := λ n, Z.of_nat n;
     json_isNull := λ _, false;
     os_writeFailureTruncates := false |}.

(** The same runtime on a medium whose failing writes fail after the
    truncation. *)
Definition truncatingRuntime : Runtime (list Expense) :=
  {| json_Unmarshal := λ data, Some data;
     json_MarshalIndent := λ expenses, Some expenses;
     time_clock := λ n, Z.of_nat n;
     json_isNull := λ _, false;
     os_writeFailureTruncates := true |}.

(** A runtime whose documents remember the width of their indentation:
    [json.MarshalIndent(expenses, "", " ")] writes with width 1, decoding
    ignores the width. *)
Definition indentRuntime : Runtime (nat * list Expense) :=
  {| json_Unmarshal := λ data, Some data.2;
     json_MarshalIndent := λ expenses, Some (1%nat, expenses);
     time_clock := λ n, Z.of_nat n;
     json_isNull := λ _, false;
     os_writeFailureTruncates := false |}.

Definition emptyWorld : World (list Expense) := mkWorld Absent true 0.

Definition worldOf (expenses : list Expense) : World (list Expense) :=
  mkWorld (Present expenses) true 0.

(** * Properties *)

(** ** Go's [int] *)

Module GoIntFacts.
Import GoInt.

Lemma wrap_in_range z : in_range (wrap z).
Proof.
  unfold in_range, wrap, MinInt, MaxInt.
  pose proof (Z.mod_pos_bound (z + 2 ^ 63) (2 ^ 64)). lia.
Qed.

Lemma wrap_id z : in_range z → wrap z = z.
Proof.
  unfold in_range, wrap, MinInt, MaxInt. intros Hz.
  rewrite Z.mod_small; lia.
Qed.

Lemma wrap_id_iff z : wrap z = z ↔ in_range z.
Proof.
  split; [|apply wrap_id].
  intros <-. apply wrap_in_range.
Qed.

Lemma wrap_add_l a b : wrap (wrap a + b) = wrap (a + b).
Proof.
  unfold wrap. f_equal.
  replace ((a + 2 ^ 63) `mod` 2 ^ 64 - 2 ^ 63 + b + 2 ^ 63)
    with ((a + 2 ^ 63) `mod` 2 ^ 64 + b) by lia.
  rewrite Zplus_mod_idemp_l. f_equal. lia.
Qed.

Lemma add_succ_small m : 0 ≤ m < MaxInt → add m 1 = m + 1.
Proof.
  intros Hm. apply wrap_id. unfold in_range, MinInt, MaxInt in *. lia.
Qed.

Lemma add_MaxInt_1 : add MaxInt 1 = MinInt.
Proof. reflexivity. Qed.

End GoIntFacts.

(** ** The running maximum *)

Lemma maxID_loop_foldl_max (expenses : list Expense) (m : Z) :
  foldl (λ maxID expense, if bool_decide (ID expense > maxID) then ID expense else maxID)
        m expenses
  = foldl Z.max m (ids expenses).
Proof.
  revert m. induction expenses as [|e l IH]; intros m; simpl; [done|].
  rewrite IH. f_equal. case_bool_decide; lia.
Qed.

Lemma foldl_max_assoc (a b : Z) (zs : list Z) :
  foldl Z.max (Z.max a b) zs = Z.max a (foldl Z.max b zs).
Proof.
  revert b. induction zs as [|z zs IH]; intros b; simpl; [done|].
  rewrite <- IH. f_equal. lia.
Qed.

Lemma foldl_max_lower (m : Z) (zs : list Z) : m ≤ foldl Z.max m zs.
Proof.
  revert m. induction zs as [|z zs IH]; intros m; simpl; [lia|].
  specialize (IH (Z.max m z)). lia.
Qed.

Lemma foldl_max_upper (m : Z) (zs : list Z) (z : Z) :
  z ∈ zs → z ≤ foldl Z.max m zs.
Proof.
  revert m. induction zs as [|y zs IH]; intros m Hin; simpl.
  - by apply elem_of_nil in Hin.
  - apply elem_of_cons in Hin as [->|Hin].
    + pose proof (foldl_max_lower (Z.max m y) zs). lia.
    + by apply IH.
Qed.

(** The maximum is the start value or one of the elements. *)
Lemma foldl_max_attained (m : Z) (zs : list Z) :
  foldl Z.max m zs = m ∨ foldl Z.max m zs ∈ zs.
Proof.
  revert m. induction zs as [|y zs IH]; intros m; simpl; [by left|].
  destruct (IH (Z.max m y)) as [Heq|Hin].
  - rewrite Heq. destruct (Z.max_spec m y) as [[_ ->]|[_ ->]].
    + right. apply elem_of_cons. by left.
    + by left.
  - right. apply elem_of_cons. by right.
Qed.

Lemma maxID_loop_max (expenses : list Expense) :
  maxID_loop expenses = Z.max 0 (max_default 0 (ids expenses)).
Proof.
  unfold maxID_loop. rewrite maxID_loop_foldl_max.
  destruct expenses as [|e l]; simpl; [done|].
  apply foldl_max_assoc.
Qed.

Lemma maxID_loop_nonneg (expenses : list Expense) : 0 ≤ maxID_loop expenses.
Proof.
  unfold maxID_loop. rewrite maxID_loop_foldl_max. apply foldl_max_lower.
Qed.

Lemma maxID_loop_upper (expenses : list Expense) (id : Z) :
  id ∈ ids expenses → id ≤ maxID_loop expenses.
Proof.
  unfold maxID_loop. rewrite maxID_loop_foldl_max. apply foldl_max_upper.
Qed.

Lemma maxID_loop_attained (expenses : list Expense) :
  maxID_loop expenses = 0 ∨ maxID_loop expenses ∈ ids expenses.
Proof.
  unfold maxID_loop. rewrite maxID_loop_foldl_max. apply foldl_max_attained.
Qed.

Lemma maxID_loop_below_MaxInt (expenses : list Expense) :
  Forall (λ e, ID e < GoInt.MaxInt) expenses →
  0 ≤ maxID_loop expenses < GoInt.MaxInt.
Proof.
  intros Hall. split; [apply maxID_loop_nonneg|].
  destruct (maxID_loop_attained expenses) as [->|Hin]; [done|].
  apply list_elem_of_fmap in Hin as (e & -> & He).
  rewrite Forall_forall in Hall. by apply Hall.
Qed.

(** Without overflow the new id is above every id and at least 1. *)
Lemma generateUniqueID_small (expenses : list Expense) :
  Forall (λ e, ID e < GoInt.MaxInt) expenses →
  generateUniqueID expenses = maxID_loop expenses + 1.
Proof.
  intros Hall. unfold generateUniqueID.
  apply GoIntFacts.add_succ_small. by apply maxID_loop_below_MaxInt.
Qed.

Lemma generateUniqueID_fresh (expenses : list Expense) :
  Forall (λ e, ID e < GoInt.MaxInt) expenses →
  generateUniqueID expenses ∉ ids expenses.
Proof.
  intros Hall Hin. rewrite generateUniqueID_small in Hin by done.
  apply maxID_loop_upper in Hin. lia.
Qed.

(** ** The scan for an id *)

Lemma find_index_None (id : Z) (expenses : list Expense) :
  find_index id expenses = None ↔ id ∉ ids expenses.
Proof.
  induction expenses as [|e l IH]; simpl.
  - split; [intros _; apply not_elem_of_nil|done].
  - rewrite not_elem_of_cons. case_bool_decide as Hid.
    + split; [done|]. intros [Hne _]. by destruct Hne.
    + rewrite fmap_None, IH. split; [intros Hl; split; [congruence|done] | by intros [_ Hl]].
Qed.

Lemma find_index_is_Some (id : Z) (expenses : list Expense) :
  id ∈ ids expenses → is_Some (find_index id expenses).
Proof.
  intros Hin. destruct (find_index id expenses) eqn:Hfind; [by eexists|].
  by apply find_index_None in Hfind.
Qed.

(** The index found holds a record with the id, and no earlier one does. *)
Lemma find_index_Some (id : Z) (expenses : list Expense) (i : nat) :
  find_index id expenses = Some i →
  ∃ e, expenses !! i = Some e ∧ ID e = id ∧
       ∀ j e', (j < i)%nat → expenses !! j = Some e' → ID e' ≠ id.
Proof.
  revert i. induction expenses as [|e l IH]; intros i; simpl; [done|].
  case_bool_decide as Hid.
  - intros [= <-]. exists e. split_and!; [done..|]. intros j e' Hj. lia.
  - destruct (find_index id l) as [k|] eqn:Hfind; simpl; [|done].
    intros [= <-]. destruct (IH k eq_refl) as (e0 & Hk & He0 & Hbefore).
    exists e0. split_and!; [done..|].
    intros [|j] e' Hj; simpl.
    + by intros [= <-].
    + apply Hbefore. lia.
Qed.

Lemma find_index_lt (id : Z) (expenses : list Expense) (i : nat) :
  find_index id expenses = Some i → (i < length expenses)%nat.
Proof.
  intros (e & Hi & _)%find_index_Some. by eapply lookup_lt_Some.
Qed.

(** ** Update in place and removal *)

Lemma ID_update_fields (u : Expense) (now : Time) (e : Expense) :
  ID (update_fields u now e) = ID e.
Proof. done. Qed.

Lemma ids_alter_update_fields (u : Expense) (now : Time) (i : nat)
    (expenses : list Expense) :
  ids (alter (update_fields u now) i expenses) = ids expenses.
Proof.
  unfold ids.
  rewrite (list_fmap_alter ID (update_fields u now) (λ z, z)).
  - by apply list_alter_id.
  - by apply Forall_true.
Qed.

Lemma remove_at_delete (i : nat) (expenses : list Expense) :
  remove_at i expenses = delete i expenses.
Proof. unfold remove_at. by rewrite delete_take_drop. Qed.

Lemma ids_remove_at (i : nat) (expenses : list Expense) :
  ids (remove_at i expenses) = delete i (ids expenses).
Proof. unfold ids. by rewrite remove_at_delete, list_fmap_delete. Qed.

Lemma NoDup_ids_remove_at (i : nat) (expenses : list Expense) :
  NoDup (ids expenses) → NoDup (ids (remove_at i expenses)).
Proof.
  rewrite ids_remove_at. intros Hnd.
  eapply sublist_NoDup; first done. apply sublist_delete.
Qed.

(** With distinct ids, the id removed is gone. *)
Lemma removed_id_absent (i : nat) (expenses : list Expense) (e : Expense) :
  NoDup (ids expenses) → expenses !! i = Some e →
  ID e ∉ ids (remove_at i expenses).
Proof.
  intros Hnd Hi.
  rewrite <- (take_drop_middle expenses i e Hi) in Hnd.
  unfold ids in Hnd. rewrite fmap_app, fmap_cons in Hnd.
  apply NoDup_app in Hnd as (_ & Hdisj & Hnd).
  apply NoDup_cons in Hnd as [Hnotin _].
  unfold remove_at, ids. rewrite fmap_app, elem_of_app.
  intros [Hin|Hin]; [|done].
  apply (Hdisj _ Hin). apply elem_of_cons. by left.
Qed.

(** ** The sum *)

Lemma totalSum_loop_from (expenses : list Expense) (acc : Z) :
  foldl (λ totalSum expense, GoInt.add totalSum (Amount expense)) (GoInt.wrap acc) expenses
  = GoInt.wrap (acc + sum_amounts expenses).
Proof.
  unfold sum_amounts.
  revert acc. induction expenses as [|e l IH]; intros acc; simpl.
  - f_equal. lia.
  - unfold GoInt.add at 2. rewrite GoIntFacts.wrap_add_l, IH. f_equal. lia.
Qed.

Lemma totalSum_loop_wrap (expenses : list Expense) :
  totalSum_loop expenses = GoInt.wrap (sum_amounts expenses).
Proof.
  unfold totalSum_loop, sum_amounts.
  change 0 with (GoInt.wrap 0) at 1. by rewrite totalSum_loop_from.
Qed.

(** ** Steps of the handlers *)

Section Steps.
Context {Doc : Type} {RT : Runtime Doc}.
Implicit Types (w : World Doc) (r : Request) (expenses : list Expense).

Lemma loadExpenses_file w1 w2 :
  expenseFile w1 = expenseFile w2 → loadExpenses w1 = loadExpenses w2.
Proof. unfold loadExpenses. by intros ->. Qed.


Lemma loadExpenses_Present (data : Doc) (b : bool) (n : nat) expenses :
  json_Unmarshal data = Some expenses →
  loadExpenses (mkWorld (Present data) b n) = inr expenses.
Proof. unfold loadExpenses; simpl. by intros ->. Qed.

Lemma saveExpenses_ok expenses w (data : Doc) :
  json_MarshalIndent expenses = Some data → writable w = true →
  saveExpenses expenses w = (None, mkWorld (Present data) true (ticks w)).
Proof.
  intros Hm Hw. unfold saveExpenses, os_WriteFile. by rewrite Hm, Hw.
Qed.

(** A save writes the serialised collection, or returns an error: then the
    file is the one before, or the one a failed write has truncated. *)
Lemma saveExpenses_cases expenses w :
  (∃ data, json_MarshalIndent expenses = Some data ∧ writable w = true ∧
           saveExpenses expenses w = (None, mkWorld (Present data) true (ticks w)))
  ∨ (∃ err file',
       saveExpenses expenses w = (Some err, mkWorld file' (writable w) (ticks w)) ∧
       (file' = expenseFile w
        ∨ (writable w = false ∧ os_writeFailureTruncates = true ∧ file' = Truncated))).
Proof.
  unfold saveExpenses, os_WriteFile, failed_write.
  destruct w as [file b n]. simpl.
  destruct (json_MarshalIndent expenses) as [data|] eqn:Hm;
    [|right; eexists _, _; split; [done|by left]].
  destruct b; [left; by exists data|].
  right. destruct os_writeFailureTruncates eqn:Htr.
  - eexists _, _. split; [done|]. by right.
  - eexists _, _. split; [done|]. by left.
Qed.

(** With the permission to write, a save can only fail before the write. *)
Lemma saveExpenses_cases_writable expenses w :
  writable w = true →
  (∃ data, json_MarshalIndent expenses = Some data ∧
           saveExpenses expenses w = (None, mkWorld (Present data) true (ticks w)))
  ∨ (json_MarshalIndent expenses = None ∧
     saveExpenses expenses w = (Some MarshalError, w)).
Proof.
  intros Hw. unfold saveExpenses, os_WriteFile.
  destruct (json_MarshalIndent expenses) as [data|] eqn:Hm; [|by right].
  rewrite Hw. left. by exists data.
Qed.

Lemma addExpenseHandler_ok r w payload expenses (data : Doc) :
  rMethod r = POST → rBody r = Some payload →
  loadExpenses w = inr expenses →
  json_MarshalIndent (expenses ++ [new_expense expenses payload w]) = Some data →
  writable w = true →
  addExpenseHandler r w
  = (Created (new_expense expenses payload w),
     mkWorld (Present data) true (S (S (ticks w)))).
Proof.
  intros Hmeth Hbody Hload Hm Hw. unfold addExpenseHandler.
  rewrite Hmeth, Hbody, Hload. simpl.
  unfold saveExpenses, os_WriteFile. simpl.
  change (set_UpdatedAt _ _) with (new_expense expenses payload w).
  by rewrite Hm, Hw.
Qed.

Lemma updateExpenseHandler_ok r w id payload expenses (i : nat) (data : Doc) :
  rMethod r = PUT → rPathID r = Some id → rBody r = Some payload →
  loadExpenses w = inr expenses →
  find_index id expenses = Some i →
  json_MarshalIndent
    (alter (update_fields payload (time_clock (ticks w))) i expenses) = Some data →
  writable w = true →
  updateExpenseHandler r w
  = (OkExpenses (alter (update_fields payload (time_clock (ticks w))) i expenses),
     mkWorld (Present data) true (S (ticks w))).
Proof.
  intros Hmeth Hid Hbody Hload Hfind Hm Hw. unfold updateExpenseHandler.
  rewrite Hmeth, Hid, Hbody, Hload, Hfind. simpl.
  unfold saveExpenses, os_WriteFile. simpl. by rewrite Hm, Hw.
Qed.

Lemma deleteExpenseHandler_ok r w id expenses (i : nat) (data : Doc) :
  rMethod r = DELETE → rPathID r = Some id →
  loadExpenses w = inr expenses →
  find_index id expenses = Some i →
  json_MarshalIndent (remove_at i expenses) = Some data →
  writable w = true →
  deleteExpenseHandler r w = (NoContent, mkWorld (Present data) true (ticks w)).
Proof.
  intros Hmeth Hid Hload Hfind Hm Hw. unfold deleteExpenseHandler.
  rewrite Hmeth, Hid, Hload, Hfind. simpl.
  unfold saveExpenses, os_WriteFile. by rewrite Hm, Hw.
Qed.

End Steps.

(** ** The concrete runtime satisfies the codec contract *)

Lemma plain_round_trip : codec_round_trip (RT := plainRuntime).
Proof. intros expenses data. simpl. by intros [= ->]. Qed.

Lemma plain_marshal_total : marshal_total (RT := plainRuntime).
Proof. intros expenses. by eexists. Qed.

(** ** C10: the generated id is above every id *)

(** C10, as stated, fails when the collection holds the largest [int]:
    the running maximum is [MaxInt], [maxID + 1] wraps around to [MinInt],
    which is neither above the ids nor at least 1. *)
Lemma generateUniqueID_wraps_at_MaxInt :
  generateUniqueID [expenseWithID GoInt.MaxInt] = GoInt.MinInt ∧
  ¬ ((∀ id, id ∈ ids [expenseWithID GoInt.MaxInt] →
            id < generateUniqueID [expenseWithID GoInt.MaxInt]) ∧
     1 ≤ generateUniqueID [expenseWithID GoInt.MaxInt]).
Proof.
  split; [reflexivity|].
  intros [_ Hge]. vm_compute in Hge. by apply Hge.
Qed.

(** C10 (amended): for every collection whose ids are all below the largest
    [int] value, zero and negative ids included, [generateUniqueID] returns
    a value strictly greater than every id of the collection and at least
    1: the running maximum starts at 0 and is only raised by greater ids. *)
Theorem generateUniqueID_above_all (expenses : list Expense) :
  Forall (λ e, ID e < GoInt.MaxInt) expenses →
  (∀ id, id ∈ ids expenses → id < generateUniqueID expenses) ∧
  1 ≤ generateUniqueID expenses.
Proof.
  intros Hall. rewrite generateUniqueID_small by done. split.
  - intros id Hin. apply maxID_loop_upper in Hin. lia.
  - pose proof (maxID_loop_nonneg expenses). lia.
Qed.

Lemma generateUniqueID_above_all_witness :
  (∀ id, id ∈ ids [expenseWithID 0; expenseWithID (-7); expenseWithID 3] →
         id < generateUniqueID [expenseWithID 0; expenseWithID (-7); expenseWithID 3]) ∧
  1 ≤ generateUniqueID [expenseWithID 0; expenseWithID (-7); expenseWithID 3].
Proof.
  apply (generateUniqueID_above_all
           [expenseWithID 0; expenseWithID (-7); expenseWithID 3]).
  repeat constructor.
Defined.

(** ** Successful steps under the codec contract *)

Lemma generateUniqueID_ids (l1 l2 : list Expense) :
  ids l1 = ids l2 → generateUniqueID l1 = generateUniqueID l2.
Proof.
  intros Hids. unfold generateUniqueID, maxID_loop.
  by rewrite !maxID_loop_foldl_max, Hids.
Qed.

Lemma find_index_ids (id : Z) (l1 l2 : list Expense) :
  ids l1 = ids l2 → find_index id l1 = find_index id l2.
Proof.
  revert l2. induction l1 as [|e1 l1 IH]; intros [|e2 l2]; simpl; try done.
  intros [= Hid Hrest]. rewrite Hid, (IH l2 Hrest). done.
Qed.

(** An id that is not in the collection is found at the appended record. *)
Lemma find_index_snoc_fresh (id : Z) (expenses : list Expense) (e : Expense) :
  id ∉ ids expenses → ID e = id →
  find_index id (expenses ++ [e]) = Some (length expenses).
Proof.
  intros Hfresh He. induction expenses as [|e0 l IH]; simpl.
  - by rewrite bool_decide_eq_true_2.
  - unfold ids in Hfresh. rewrite fmap_cons, not_elem_of_cons in Hfresh.
    destruct Hfresh as [Hne Hfresh].
    rewrite bool_decide_eq_false_2 by congruence.
    by rewrite (IH Hfresh).
Qed.

Lemma remove_at_snoc (expenses : list Expense) (e : Expense) :
  remove_at (length expenses) (expenses ++ [e]) = expenses.
Proof.
  unfold remove_at. rewrite take_app_length.
  rewrite drop_ge; [by rewrite app_nil_r|].
  rewrite length_app. simpl. lia.
Qed.

Section Transactions.
Context {Doc : Type} {RT : Runtime Doc}.
Hypothesis Hround : codec_round_trip (Doc := Doc).
Hypothesis Htotal : marshal_total (Doc := Doc).
Implicit Types (w : World Doc) (expenses : list Expense).

Lemma add_transaction w expenses payload :
  loadExpenses w = inr expenses → writable w = true →
  ∃ w', addExpenseHandler (postRequest payload) w
        = (Created (new_expense expenses payload w), w') ∧
        loadExpenses w' = inr (expenses ++ [new_expense expenses payload w]) ∧
        writable w' = true ∧ ticks w' = S (S (ticks w)).
Proof.
  intros Hload Hw.
  destruct (Htotal (expenses ++ [new_expense expenses payload w])) as [data Hm].
  eexists. split; [by eapply addExpenseHandler_ok|].
  split_and!; [|done..]. apply loadExpenses_Present. by apply Hround.
Qed.

Lemma update_transaction w expenses id payload (i : nat) :
  loadExpenses w = inr expenses → writable w = true →
  find_index id expenses = Some i →
  ∃ w', updateExpenseHandler (putRequest id payload) w
        = (OkExpenses (alter (update_fields payload (time_clock (ticks w))) i expenses),
           w') ∧
        loadExpenses w'
        = inr (alter (update_fields payload (time_clock (ticks w))) i expenses) ∧
        writable w' = true ∧ ticks w' = S (ticks w).
Proof.
  intros Hload Hw Hfind.
  destruct (Htotal (alter (update_fields payload (time_clock (ticks w))) i expenses))
    as [data Hm].
  eexists. split; [by eapply updateExpenseHandler_ok|].
  split_and!; [|done..]. apply loadExpenses_Present. by apply Hround.
Qed.

Lemma delete_transaction w expenses id (i : nat) :
  loadExpenses w = inr expenses → writable w = true →
  find_index id expenses = Some i →
  ∃ w', deleteExpenseHandler (deleteRequest id) w = (NoContent, w') ∧
        loadExpenses w' = inr (remove_at i expenses) ∧
        writable w' = true ∧ ticks w' = ticks w.
Proof.
  intros Hload Hw Hfind.
  destruct (Htotal (remove_at i expenses)) as [data Hm].
  eexists. split; [by eapply deleteExpenseHandler_ok|].
  split_and!; [|done..]. apply loadExpenses_Present. by apply Hround.
Qed.

(** Create A, Create B, Delete(2), Create C on a store without a file. *)
Lemma reuse_scenario w (a b c : Expense) :
  expenseFile w = Absent → writable w = true →
  ∃ ea eb ec w',
    serve_all [(RouteAdd, postRequest a); (RouteAdd, postRequest b);
               (RouteDelete, deleteRequest 2); (RouteAdd, postRequest c)] w
    = ([Created ea; Created eb; NoContent; Created ec], w') ∧
    ID ea = 1 ∧ ID eb = 2 ∧ ID ec = 2.
Proof.
  intros Hfile Hw.
  assert (loadExpenses w = inr []) as Hload
    by (unfold loadExpenses; by rewrite Hfile).
  destruct (add_transaction w [] a Hload Hw) as (w1 & Hs1 & Hl1 & Hw1 & _).
  set (ea := new_expense [] a w) in *.
  destruct (add_transaction w1 _ b Hl1 Hw1) as (w2 & Hs2 & Hl2 & Hw2 & _).
  set (eb := new_expense ([] ++ [ea]) b w1) in *.
  assert (ids (([] ++ [ea]) ++ [eb]) = ids [expenseWithID 1; expenseWithID 2])
    as Hids by done.
  assert (find_index 2 (([] ++ [ea]) ++ [eb]) = Some 1%nat) as Hfind
    by (by rewrite (find_index_ids _ _ _ Hids)).
  destruct (delete_transaction w2 _ 2 1 Hl2 Hw2 Hfind) as (w3 & Hs3 & Hl3 & Hw3 & _).
  destruct (add_transaction w3 _ c Hl3 Hw3) as (w4 & Hs4 & _).
  exists ea, eb, (new_expense (remove_at 1 (([] ++ [ea]) ++ [eb])) c w3), w4.
  split; [|done].
  simpl. by rewrite Hs1, Hs2, Hs3, Hs4.
Qed.

End Transactions.

(** ** C1: the id assigned by Create *)

(** C1, as stated, fails on a collection that holds the largest [int]:
    Create answers with the id [MinInt], while [1 + max(ids, default 0)]
    is [2 ^ 63]. *)
Lemma create_id_wraps_at_MaxInt :
  ∃ e w',
    addExpenseHandler (RT := plainRuntime) (postRequest zeroExpense)
      (worldOf [expenseWithID GoInt.MaxInt]) = (Created e, w') ∧
    ID e = GoInt.MinInt ∧
    spec_next_id [expenseWithID GoInt.MaxInt] = 2 ^ 63 ∧
    ID e ≠ spec_next_id [expenseWithID GoInt.MaxInt].
Proof.
  eexists _, _. split; [reflexivity|]. by split_and!.
Qed.

(** The running maximum starts at 0, so on ids that are all negative the
    code and the formula with a default for the empty collection differ. *)
Lemma spec_next_id_negative_ids :
  generateUniqueID [expenseWithID (-5)] = 1 ∧
  spec_next_id [expenseWithID (-5)] = -4.
Proof. by split. Qed.

(** The id of a deleted maximum is not reused in general: after five
    Create calls and the deletion of 2, 3, 4 and then 5, the maximum that
    was just deleted is 5 and the next Create assigns 2. *)
Lemma deleted_maximum_not_reused :
  (serve_all (RT := plainRuntime)
     (create_requests (replicate 5 zeroExpense)
      ++ [(RouteDelete, deleteRequest 2); (RouteDelete, deleteRequest 3);
          (RouteDelete, deleteRequest 4); (RouteDelete, deleteRequest 5);
          (RouteAdd, postRequest zeroExpense)]) emptyWorld).1
  = [Created (mkExpense 1 "" 0 0 1); Created (mkExpense 2 "" 0 2 3);
     Created (mkExpense 3 "" 0 4 5); Created (mkExpense 4 "" 0 6 7);
     Created (mkExpense 5 "" 0 8 9);
     NoContent; NoContent; NoContent; NoContent;
     Created (mkExpense 2 "" 0 10 11)].
Proof. reflexivity. Qed.

(** C1 (amended): on a collection whose ids are all below the largest [int]
    value, Create assigns the new record 1 + the maximum of 0 and the ids of
    the loaded collection, which is [1 + max(ids, default 0)] whenever the
    collection is empty or holds a non-negative id, and 1 on the empty
    collection; the record is appended to the durable collection.  When
    the record Create has just added is deleted, the next Create assigns
    its id again: Create A (id 1), Create B (id 2), Delete(2), Create C
    gives C the id 2. *)
Theorem create_assigns_next_id {Doc : Type} {RT : Runtime Doc} :
  codec_round_trip (Doc := Doc) → marshal_total (Doc := Doc) →
  (∀ (w : World Doc) (expenses : list Expense) (payload : Expense),
     loadExpenses w = inr expenses → writable w = true →
     Forall (λ e, ID e < GoInt.MaxInt) expenses →
     ∃ e w',
       addExpenseHandler (postRequest payload) w = (Created e, w') ∧
       loadExpenses w' = inr (expenses ++ [e]) ∧
       ID e = 1 + Z.max 0 (max_default 0 (ids expenses)) ∧
       ((expenses = [] ∨ ∃ id, id ∈ ids expenses ∧ 0 ≤ id) →
        ID e = spec_next_id expenses) ∧
       (expenses = [] → ID e = 1)) ∧
  (∀ (w : World Doc) (a b c : Expense),
     expenseFile w = Absent → writable w = true →
     ∃ ea eb ec w',
       serve_all [(RouteAdd, postRequest a); (RouteAdd, postRequest b);
                  (RouteDelete, deleteRequest 2); (RouteAdd, postRequest c)] w
       = ([Created ea; Created eb; NoContent; Created ec], w') ∧
       ID ea = 1 ∧ ID eb = 2 ∧ ID ec = 2) ∧
  (∀ (w : World Doc) (expenses : list Expense) (payload payload' : Expense),
     loadExpenses w = inr expenses → writable w = true →
     Forall (λ e, ID e < GoInt.MaxInt) expenses →
     ∃ e w1 e' w',
       addExpenseHandler (postRequest payload) w = (Created e, w1) ∧
       serve_all [(RouteDelete, deleteRequest (ID e));
                  (RouteAdd, postRequest payload')] w1
       = ([NoContent; Created e'], w') ∧
       ID e' = ID e).
Proof.
  intros Hround Htotal. split_and!; [|by apply reuse_scenario|].
  2: {
    intros w expenses payload payload' Hload Hw Hall.
    destruct (add_transaction Hround Htotal w expenses payload Hload Hw)
      as (w1 & Hs1 & Hl1 & Hw1 & _).
    set (e := new_expense expenses payload w) in *.
    assert (find_index (ID e) (expenses ++ [e]) = Some (length expenses)) as Hfind.
    { apply find_index_snoc_fresh; [by apply generateUniqueID_fresh|done]. }
    destruct (delete_transaction Hround Htotal w1 _ _ _ Hl1 Hw1 Hfind)
      as (w2 & Hs2 & Hl2 & Hw2 & _).
    rewrite remove_at_snoc in Hl2.
    destruct (add_transaction Hround Htotal w2 expenses payload' Hl2 Hw2)
      as (w3 & Hs3 & _).
    exists e, w1, (new_expense expenses payload' w2), w3.
    split_and!; [done| |done].
    cbn [serve_all serve]. by rewrite Hs2, Hs3. }
  intros w expenses payload Hload Hw Hall.
  destruct (add_transaction Hround Htotal w expenses payload Hload Hw)
    as (w' & Hstep & Hload' & _).
  exists (new_expense expenses payload w), w'.
  assert (ID (new_expense expenses payload w)
          = 1 + Z.max 0 (max_default 0 (ids expenses))) as Hid.
  { simpl. rewrite generateUniqueID_small, maxID_loop_max by done. lia. }
  split_and!; [done..| |].
  - rewrite Hid. unfold spec_next_id. intros [->|(id & Hin & Hid0)]; [done|].
    f_equal. apply Z.max_r.
    pose proof (maxID_loop_upper expenses id Hin) as Hub.
    rewrite maxID_loop_max in Hub.
    destruct expenses as [|e0 l]; [by apply elem_of_nil in Hin|].
    simpl in *. pose proof (foldl_max_upper (ID e0) (ids l) id) as Hup.
    apply elem_of_cons in Hin as [->|Hin].
    + pose proof (foldl_max_lower (ID e0) (ids l)). lia.
    + specialize (Hup Hin). lia.
  - intros ->. by rewrite Hid.
Qed.

Lemma create_assigns_next_id_witness :
  (∃ e w',
     addExpenseHandler (RT := plainRuntime) (postRequest zeroExpense)
       (worldOf [expenseWithID 1; expenseWithID 5]) = (Created e, w') ∧
     ID e = 6) ∧
  (∃ ea eb ec w',
     serve_all (RT := plainRuntime)
       [(RouteAdd, postRequest zeroExpense); (RouteAdd, postRequest zeroExpense);
        (RouteDelete, deleteRequest 2); (RouteAdd, postRequest zeroExpense)] emptyWorld
     = ([Created ea; Created eb; NoContent; Created ec], w') ∧
     ID ea = 1 ∧ ID eb = 2 ∧ ID ec = 2) ∧
  (∃ e w1 e' w',
     addExpenseHandler (RT := plainRuntime) (postRequest zeroExpense)
       (worldOf [expenseWithID 1; expenseWithID 5]) = (Created e, w1) ∧
     serve_all (RT := plainRuntime)
       [(RouteDelete, deleteRequest (ID e)); (RouteAdd, postRequest zeroExpense)] w1
     = ([NoContent; Created e'], w') ∧
     ID e' = ID e).
Proof.
  destruct (create_assigns_next_id (RT := plainRuntime)
              plain_round_trip plain_marshal_total) as (Hcreate & Hscenario & Hreuse).
  split_and!.
  - destruct (Hcreate (worldOf [expenseWithID 1; expenseWithID 5])
                [expenseWithID 1; expenseWithID 5] zeroExpense
                eq_refl eq_refl ltac:(repeat constructor))
      as (e & w' & Hstep & _ & Hid & _).
    exists e, w'. split; [exact Hstep|]. rewrite Hid. reflexivity.
  - exact (Hscenario emptyWorld zeroExpense zeroExpense zeroExpense eq_refl eq_refl).
  - exact (Hreuse (worldOf [expenseWithID 1; expenseWithID 5])
             [expenseWithID 1; expenseWithID 5] zeroExpense zeroExpense
             eq_refl eq_refl ltac:(repeat constructor)).
Defined.

(** ** What a request does to the durable collection *)

Section Effects.
Context {Doc : Type} {RT : Runtime Doc}.
Hypothesis Hround : codec_round_trip (RT := RT).
Implicit Types (w : World Doc) (r : Request) (expenses : list Expense).

Local Ltac save_cases Hwritable :=
  match goal with
  | |- context [saveExpenses ?l ?w] =>
      let data := fresh "data" in
      let Hm := fresh "Hm" in
      let Hs := fresh "Hs" in
      destruct (saveExpenses_cases_writable l w Hwritable) as [(data & Hm & Hs)|(Hm & Hs)];
      rewrite Hs; simpl
  end.

(** After any request to a store that can be written the store still
    loads, and the collection is the old one, the old one with the new
    record appended, with one record updated in place, or with one record
    removed. *)
Lemma serve_effect (route : Route) r w expenses :
  loadExpenses w = inr expenses → writable w = true →
  ∃ expenses',
    loadExpenses (serve route r w).2 = inr expenses' ∧
    (expenses' = expenses
     ∨ (route = RouteAdd ∧
        ∃ payload, expenses' = expenses ++ [new_expense expenses payload w])
     ∨ (route = RouteUpdate ∧
        ∃ payload now i, expenses' = alter (update_fields payload now) i expenses)
     ∨ (route = RouteDelete ∧ ∃ i, expenses' = remove_at i expenses)).
Proof.
  intros Hload Hw.
  assert (∀ b n, loadExpenses (mkWorld (expenseFile w) b n) = inr expenses) as Hsame.
  { intros b n. rewrite <- Hload. by apply loadExpenses_file. }
  assert (∀ n, writable (mkWorld (expenseFile w) (writable w) n) = true) as Hwn by done.
  destruct route; simpl.
  - unfold listExpensesHandler. rewrite Hload.
    exists expenses. split; [by case_bool_decide|by left].
  - unfold addExpenseHandler. case_bool_decide; [exists expenses; by split; [|left]|].
    destruct (rBody r) as [payload|]; [|exists expenses; by split; [|left]].
    rewrite Hload. simpl. save_cases (Hwn (S (S (ticks w)))).
    + eexists. split; [apply loadExpenses_Present, Hround, Hm|].
      right; left. split; [done|]. by exists payload.
    + exists expenses. split; [apply Hsame|by left].
  - unfold summaryExpensesHandler. rewrite Hload.
    exists expenses. split; [by case_bool_decide|by left].
  - unfold updateExpenseHandler. case_bool_decide; [exists expenses; by split; [|left]|].
    destruct (rPathID r) as [id|]; [|exists expenses; by split; [|left]].
    destruct (rBody r) as [payload|]; [|exists expenses; by split; [|left]].
    rewrite Hload.
    destruct (find_index id expenses) as [i|]; [|exists expenses; by split; [|left]].
    simpl. save_cases (Hwn (S (ticks w))).
    + eexists. split; [apply loadExpenses_Present, Hround, Hm|].
      right; right; left. split; [done|]. by eexists _, _, _.
    + exists expenses. split; [apply Hsame|by left].
  - unfold deleteExpenseHandler. case_bool_decide; [exists expenses; by split; [|left]|].
    destruct (rPathID r) as [id|]; [|exists expenses; by split; [|left]].
    rewrite Hload.
    destruct (find_index id expenses) as [i|]; [|exists expenses; by split; [|left]].
    simpl. save_cases Hw.
    + eexists. split; [apply loadExpenses_Present, Hround, Hm|].
      right; right; right. split; [done|]. by eexists.
    + exists expenses. by split; [|left].
Qed.

Lemma NoDup_ids_append_new expenses payload w :
  NoDup (ids expenses) → generateUniqueID expenses ∉ ids expenses →
  NoDup (ids (expenses ++ [new_expense expenses payload w])).
Proof.
  intros Hnd Hfresh. unfold ids. rewrite fmap_app. apply NoDup_app.
  split_and!; [done| |apply NoDup_singleton].
  intros id Hin Hnew. apply list_elem_of_singleton in Hnew. simpl in Hnew. by subst id.
Qed.

(** On a store that can be written, Update and Delete keep the ids
    pairwise distinct, and Create does whenever the id it generates is not
    in the collection. *)
Lemma distinct_ids_kept (route : Route) r w expenses :
  loadExpenses w = inr expenses → writable w = true →
  NoDup (ids expenses) →
  (route = RouteAdd → generateUniqueID expenses ∉ ids expenses) →
  ∃ expenses',
    loadExpenses (serve route r w).2 = inr expenses' ∧ NoDup (ids expenses').
Proof.
  intros Hload Hw Hnd Hfresh.
  destruct (serve_effect route r w expenses Hload Hw) as (expenses' & Hload' & Hcases).
  exists expenses'. split; [done|].
  destruct Hcases as [->|[(-> & payload & ->)|[(_ & payload & now & i & ->)|(_ & i & ->)]]].
  - done.
  - apply NoDup_ids_append_new; auto.
  - by rewrite ids_alter_update_fields.
  - by apply NoDup_ids_remove_at.
Qed.

End Effects.

(** ** Runs of Create calls *)

(** On the ids [1 .. n] the running maximum is [n]. *)
Lemma maxID_loop_seqZ (expenses : list Expense) :
  ids expenses = seqZ 1 (Z.of_nat (length expenses)) →
  maxID_loop expenses = Z.of_nat (length expenses).
Proof.
  intros Hids.
  destruct (maxID_loop_attained expenses) as [H0|Hin].
  - destruct expenses as [|e l]; [done|].
    assert (Z.of_nat (length (e :: l)) ∈ ids (e :: l)) as Hlast.
    { rewrite Hids. apply elem_of_seqZ. simpl. lia. }
    apply maxID_loop_upper in Hlast. simpl in *. lia.
  - pose proof Hin as Hin'. rewrite Hids in Hin'. apply elem_of_seqZ in Hin'.
    assert (maxID_loop expenses = Z.of_nat (length expenses)
            ∨ maxID_loop expenses < Z.of_nat (length expenses)) as [->|Hlt] by lia;
      [done|].
    assert (Z.of_nat (length expenses) ∈ ids expenses) as Hlast.
    { rewrite Hids. apply elem_of_seqZ. lia. }
    apply maxID_loop_upper in Hlast. lia.
Qed.

Lemma Forall_below_seqZ (expenses : list Expense) :
  ids expenses = seqZ 1 (Z.of_nat (length expenses)) →
  Z.of_nat (length expenses) < GoInt.MaxInt →
  Forall (λ e, ID e < GoInt.MaxInt) expenses.
Proof.
  intros Hids Hlen. apply Forall_forall. intros e He.
  assert (ID e ∈ ids expenses) as Hin by (by apply list_elem_of_fmap_2).
  rewrite Hids in Hin. apply elem_of_seqZ in Hin. lia.
Qed.

Section Runs.
Context {Doc : Type} {RT : Runtime Doc}.
Hypothesis Hround : codec_round_trip (RT := RT).
Hypothesis Htotal : marshal_total (RT := RT).

(** Starting from the ids [1 .. n], a run of [k] Create calls assigns
    [n + 1 .. n + k], as long as [n + k] is an [int]. *)
Lemma create_run (payloads : list Expense) :
  ∀ (w : World Doc) (expenses : list Expense),
    loadExpenses w = inr expenses → writable w = true →
    ids expenses = seqZ 1 (Z.of_nat (length expenses)) →
    Z.of_nat (length expenses) + Z.of_nat (length payloads) ≤ GoInt.MaxInt →
    ∃ created w',
      serve_all (create_requests payloads) w = (Created <$> created, w') ∧
      ids created
      = seqZ (1 + Z.of_nat (length expenses)) (Z.of_nat (length payloads)) ∧
      loadExpenses w' = inr (expenses ++ created) ∧ writable w' = true.
Proof.
  induction payloads as [|payload payloads IH]; intros w expenses Hload Hw Hids Hlen.
  - exists [], w. simpl. by rewrite app_nil_r.
  - simpl in Hlen.
    destruct (add_transaction Hround Htotal w expenses payload Hload Hw)
      as (w1 & Hstep & Hload1 & Hw1 & _).
    set (e := new_expense expenses payload w) in *.
    assert (ID e = 1 + Z.of_nat (length expenses)) as Hid.
    { subst e; simpl.
      rewrite generateUniqueID_small by (apply Forall_below_seqZ; [done|lia]).
      rewrite maxID_loop_seqZ by done. lia. }
    assert (ids (expenses ++ [e])
            = seqZ 1 (Z.of_nat (length (expenses ++ [e])))) as Hids1.
    { rewrite length_app. simpl. rewrite Nat.add_1_r, seqZ_S.
      unfold ids in *. rewrite fmap_app, Hids.
      change (ID <$> [e]) with [ID e]. by rewrite Hid. }
    destruct (IH w1 (expenses ++ [e]) Hload1 Hw1 Hids1)
      as (created & w' & Hrun & Hcreated & Hload' & Hw').
    { rewrite length_app. simpl. lia. }
    exists (e :: created), w'. split_and!; [| |by rewrite <- app_assoc in Hload'|done].
    + simpl. rewrite Hstep.
      change (serve_all ((λ p, (RouteAdd, postRequest p)) <$> payloads) w1)
        with (serve_all (create_requests payloads) w1).
      by rewrite Hrun.
    + change (ids (e :: created)) with (ID e :: ids created).
      rewrite Hcreated, Hid, length_app. simpl length.
      rewrite (seqZ_cons _ (Z.of_nat (S (length payloads)))) by lia.
      f_equal. f_equal; lia.
Qed.

End Runs.

(** ** C2: pairwise distinct ids *)

(** C2: the code breaks it.  On the file with the distinct ids [MaxInt] and
    [MinInt], Create is answered 201 and the collection written holds the
    id [MinInt] twice: [generateUniqueID] returns an id that is in the
    collection. *)
Theorem create_duplicates_id_after_wrap :
  NoDup (ids [expenseWithID GoInt.MaxInt; expenseWithID GoInt.MinInt]) ∧
  generateUniqueID [expenseWithID GoInt.MaxInt; expenseWithID GoInt.MinInt]
  ∈ ids [expenseWithID GoInt.MaxInt; expenseWithID GoInt.MinInt] ∧
  ∃ e w' expenses',
    addExpenseHandler (RT := plainRuntime) (postRequest zeroExpense)
      (worldOf [expenseWithID GoInt.MaxInt; expenseWithID GoInt.MinInt])
    = (Created e, w') ∧
    ID e = GoInt.MinInt ∧
    loadExpenses (RT := plainRuntime) w' = inr expenses' ∧
    ¬ NoDup (ids expenses').
Proof.
  split_and!.
  - apply NoDup_cons. split; [|apply NoDup_singleton].
    intros Hin. by apply list_elem_of_singleton in Hin.
  - apply list_elem_of_further, list_elem_of_here.
  - eexists _, _, _. split_and!; [reflexivity..|].
    intros Hnd. apply NoDup_cons in Hnd as [_ Hnd].
    apply NoDup_cons in Hnd as [Hnotin _].
    apply Hnotin. apply list_elem_of_singleton. reflexivity.
Qed.

(** ** C3: an absent id *)

(** C3: when the id is not in the loaded collection, Update and Delete
    answer 404 "Expense not found" and return the world as it was: nothing
    is saved, no clock reading is taken, and the durable collection is the
    one before the call. *)
Theorem not_found_is_non_destructive {Doc : Type} {RT : Runtime Doc}
    (w : World Doc) (expenses : list Expense) (id : Z) (payload : Expense) :
  loadExpenses w = inr expenses → id ∉ ids expenses →
  updateExpenseHandler (putRequest id payload) w
  = (HttpError StatusNotFound "Expense not found", w) ∧
  deleteExpenseHandler (deleteRequest id) w
  = (HttpError StatusNotFound "Expense not found", w) ∧
  loadExpenses (updateExpenseHandler (putRequest id payload) w).2 = inr expenses ∧
  loadExpenses (deleteExpenseHandler (deleteRequest id) w).2 = inr expenses.
Proof.
  intros Hload Habsent. apply find_index_None in Habsent.
  assert (updateExpenseHandler (putRequest id payload) w
          = (HttpError StatusNotFound "Expense not found", w)) as Hupd.
  { unfold updateExpenseHandler. simpl. by rewrite Hload, Habsent. }
  assert (deleteExpenseHandler (deleteRequest id) w
          = (HttpError StatusNotFound "Expense not found", w)) as Hdel.
  { unfold deleteExpenseHandler. simpl. by rewrite Hload, Habsent. }
  by rewrite Hupd, Hdel.
Qed.

Lemma not_found_is_non_destructive_witness :
  updateExpenseHandler (RT := plainRuntime) (putRequest 7 zeroExpense)
    (worldOf [expenseWithID 1; expenseWithID 2])
  = (HttpError StatusNotFound "Expense not found",
     worldOf [expenseWithID 1; expenseWithID 2]) ∧
  deleteExpenseHandler (RT := plainRuntime) (deleteRequest 7)
    (worldOf [expenseWithID 1; expenseWithID 2])
  = (HttpError StatusNotFound "Expense not found",
     worldOf [expenseWithID 1; expenseWithID 2]) ∧
  loadExpenses (RT := plainRuntime)
    (updateExpenseHandler (RT := plainRuntime) (putRequest 7 zeroExpense)
       (worldOf [expenseWithID 1; expenseWithID 2])).2
  = inr [expenseWithID 1; expenseWithID 2] ∧
  loadExpenses (RT := plainRuntime)
    (deleteExpenseHandler (RT := plainRuntime) (deleteRequest 7)
       (worldOf [expenseWithID 1; expenseWithID 2])).2
  = inr [expenseWithID 1; expenseWithID 2].
Proof.
  apply (not_found_is_non_destructive (RT := plainRuntime)
           (worldOf [expenseWithID 1; expenseWithID 2])
           [expenseWithID 1; expenseWithID 2] 7 zeroExpense eq_refl).
  intros Hin. apply elem_of_cons in Hin as [Hin|Hin]; [done|].
  apply elem_of_cons in Hin as [Hin|Hin]; [done|].
  by apply elem_of_nil in Hin.
Defined.

(** ** C4: Update *)

Lemma alter_as_insert (f : Expense → Expense) (i : nat) (e : Expense)
    (expenses : list Expense) :
  expenses !! i = Some e → alter f i expenses = <[i := f e]> expenses.
Proof.
  intros Hi. apply list_eq. intros j.
  destruct (decide (i = j)) as [<-|Hne].
  - rewrite list_lookup_alter_eq, Hi, list_lookup_insert_eq; [done|].
    by eapply lookup_lt_Some.
  - by rewrite list_lookup_alter_ne, list_lookup_insert_ne.
Qed.

(** C4: when the collection holds the id, Update rewrites the first record
    with that id: description and amount come from the request, id and
    created_at stay, updated_at is the clock reading of the call (so not
    earlier than the old one when the clock has not gone back); every other
    position keeps its record, the length and the order are those of the
    old collection; the updated collection is written to the file and
    returned. *)
Theorem update_replaces_in_place {Doc : Type} {RT : Runtime Doc}
    (w : World Doc) (expenses : list Expense) (id : Z) (payload : Expense) :
  marshal_total (RT := RT) →
  loadExpenses w = inr expenses → writable w = true → id ∈ ids expenses →
  ∃ (i : nat) (e : Expense) (expenses' : list Expense) (data : Doc),
    expenses !! i = Some e ∧ ID e = id ∧
    (∀ j e', (j < i)%nat → expenses !! j = Some e' → ID e' ≠ id) ∧
    expenses'
    = <[i := {| ID := ID e;
                Description := Description payload;
                Amount := Amount payload;
                CreatedAt := CreatedAt e;
                UpdatedAt := time_clock (ticks w) |}]> expenses ∧
    length expenses' = length expenses ∧
    (∀ j, j ≠ i → expenses' !! j = expenses !! j) ∧
    ids expenses' = ids expenses ∧
    (UpdatedAt e ≤ time_clock (ticks w) →
     ∃ e', expenses' !! i = Some e' ∧ UpdatedAt e ≤ UpdatedAt e') ∧
    json_MarshalIndent expenses' = Some data ∧
    updateExpenseHandler (putRequest id payload) w
    = (OkExpenses expenses', mkWorld (Present data) true (S (ticks w))).
Proof.
  intros Htotal Hload Hw Hin.
  destruct (find_index_is_Some id expenses Hin) as [i Hfind].
  destruct (find_index_Some id expenses i Hfind) as (e & Hi & Hid & Hfirst).
  set (expenses' := alter (update_fields payload (time_clock (ticks w))) i expenses).
  destruct (Htotal expenses') as [data Hm].
  exists i, e, expenses', data.
  assert (i < length expenses)%nat as Hlt by (by eapply lookup_lt_Some).
  split_and!; try done.
  - subst expenses'. by rewrite (alter_as_insert _ i e).
  - apply length_alter.
  - intros j Hj. by apply list_lookup_alter_ne.
  - apply ids_alter_update_fields.
  - intros Hclock. eexists. split.
    + subst expenses'. by rewrite list_lookup_alter_eq, Hi.
    + done.
  - by eapply updateExpenseHandler_ok.
Qed.

Lemma update_replaces_in_place_witness :
  ∃ (i : nat) (e : Expense) (expenses' : list Expense) (data : list Expense),
    [expenseWithID 1; expenseWithID 2] !! i = Some e ∧ ID e = 2 ∧
    (∀ j e', (j < i)%nat →
             [expenseWithID 1; expenseWithID 2] !! j = Some e' → ID e' ≠ 2) ∧
    expenses'
    = <[i := {| ID := ID e;
                Description := "tea";
                Amount := 300;
                CreatedAt := CreatedAt e;
                UpdatedAt := 0 |}]> [expenseWithID 1; expenseWithID 2] ∧
    length expenses' = 2%nat ∧
    (∀ j, j ≠ i → expenses' !! j = [expenseWithID 1; expenseWithID 2] !! j) ∧
    ids expenses' = [1; 2] ∧
    (0 ≤ 0 → ∃ e', expenses' !! i = Some e' ∧ UpdatedAt e ≤ UpdatedAt e') ∧
    Some expenses' = Some data ∧
    updateExpenseHandler (RT := plainRuntime)
      (putRequest 2 (mkExpense 0 "tea" 300 0 0))
      (worldOf [expenseWithID 1; expenseWithID 2])
    = (OkExpenses expenses', mkWorld (Present data) true 1).
Proof.
  destruct (update_replaces_in_place (RT := plainRuntime)
              (worldOf [expenseWithID 1; expenseWithID 2])
              [expenseWithID 1; expenseWithID 2] 2 (mkExpense 0 "tea" 300 0 0)
              plain_marshal_total eq_refl eq_refl)
    as (i & e & expenses' & data & H1 & H2 & H3 & H4 & H5 & H6 & H7 & H8 & H9 & H10).
  - apply elem_of_cons. right. apply elem_of_cons. by left.
  - exists i, e, expenses', data.
    assert (i = 1%nat) as ->.
    { destruct i as [|[|i]]; [by simplify_eq/=|done|by simplify_eq/=]. }
    simplify_eq/=. split_and!; try done.
Defined.

(** ** C5: Delete *)

(** C5: when the collection holds the id, Delete succeeds with no payload
    and writes the collection without the first record that has the id:
    the records before it and after it stay, unchanged and in their order;
    with pairwise distinct ids no record with the id is left. *)
Theorem delete_removes_first_match {Doc : Type} {RT : Runtime Doc}
    (w : World Doc) (expenses : list Expense) (id : Z) :
  marshal_total (RT := RT) →
  loadExpenses w = inr expenses → writable w = true → id ∈ ids expenses →
  ∃ (i : nat) (e : Expense) (expenses' : list Expense) (data : Doc),
    expenses !! i = Some e ∧ ID e = id ∧
    (∀ j e', (j < i)%nat → expenses !! j = Some e' → ID e' ≠ id) ∧
    expenses = take i expenses ++ e :: drop (S i) expenses ∧
    expenses' = take i expenses ++ drop (S i) expenses ∧
    (NoDup (ids expenses) → id ∉ ids expenses') ∧
    (∀ e', e' ∈ expenses → ID e' ≠ id → e' ∈ expenses') ∧
    (∀ j, (j < i)%nat → expenses' !! j = expenses !! j) ∧
    (∀ j, (i ≤ j)%nat → expenses' !! j = expenses !! S j) ∧
    expenses' `sublist_of` expenses ∧
    json_MarshalIndent expenses' = Some data ∧
    deleteExpenseHandler (deleteRequest id) w
    = (NoContent, mkWorld (Present data) true (ticks w)).
Proof.
  intros Htotal Hload Hw Hin.
  destruct (find_index_is_Some id expenses Hin) as [i Hfind].
  destruct (find_index_Some id expenses i Hfind) as (e & Hi & Hid & Hfirst).
  destruct (Htotal (remove_at i expenses)) as [data Hm].
  exists i, e, (remove_at i expenses), data.
  pose proof (take_drop_middle expenses i e Hi) as Hsplit.
  split_and!; try done.
  - intros Hnd. rewrite <- Hid. by apply removed_id_absent.
  - intros e' He' Hne. rewrite <- Hsplit in He'.
    unfold remove_at. rewrite elem_of_app in *.
    destruct He' as [He'|He']; [by left|].
    apply elem_of_cons in He' as [->|He']; [done|by right].
  - intros j Hj. rewrite remove_at_delete. by apply list_lookup_delete_lt.
  - intros j Hj. rewrite remove_at_delete. by apply list_lookup_delete_ge.
  - rewrite remove_at_delete. apply sublist_delete.
  - by eapply deleteExpenseHandler_ok.
Qed.

Lemma delete_removes_first_match_witness :
  ∃ (i : nat) (e : Expense) (expenses' data : list Expense),
    ID e = 2 ∧
    expenses' = (take i [expenseWithID 1; expenseWithID 2; expenseWithID 3]
                 ++ drop (S i) [expenseWithID 1; expenseWithID 2; expenseWithID 3]) ∧
    (2 ∉ ids expenses') ∧
    deleteExpenseHandler (RT := plainRuntime) (deleteRequest 2)
      (worldOf [expenseWithID 1; expenseWithID 2; expenseWithID 3])
    = (NoContent, mkWorld (Present data) true 0).
Proof.
  destruct (delete_removes_first_match (RT := plainRuntime)
              (worldOf [expenseWithID 1; expenseWithID 2; expenseWithID 3])
              [expenseWithID 1; expenseWithID 2; expenseWithID 3] 2
              plain_marshal_total eq_refl eq_refl)
    as (i & e & expenses' & data & _ & Hid & _ & _ & Hrem & Hgone & _ & _ & _ & _ & _ & Hdel).
  - apply elem_of_cons. right. apply elem_of_cons. by left.
  - exists i, e, expenses', data. split_and!; [done..| |done].
    apply Hgone. unfold ids. simpl.
    repeat (apply NoDup_cons; split;
            [rewrite ?elem_of_cons, elem_of_nil; intros Hin; intuition lia|]).
    apply NoDup_nil_2.
Defined.

(** ** C6: Summarize *)

(** C6, as stated, fails when the amounts overflow: for the amounts
    [MaxInt] and 1 the handler answers [MinInt], the arithmetic sum is
    [2 ^ 63]. *)
Lemma summary_wraps_around :
  summaryExpensesHandler (RT := plainRuntime) getRequest
    (worldOf [expenseWithAmount 1 GoInt.MaxInt; expenseWithAmount 2 1])
  = (OkTotal GoInt.MinInt,
     worldOf [expenseWithAmount 1 GoInt.MaxInt; expenseWithAmount 2 1]) ∧
  sum_amounts [expenseWithAmount 1 GoInt.MaxInt; expenseWithAmount 2 1] = 2 ^ 63 ∧
  GoInt.MinInt ≠ sum_amounts [expenseWithAmount 1 GoInt.MaxInt; expenseWithAmount 2 1].
Proof. by split_and!. Qed.

(** C6 (amended): Summarize returns the sum of the amounts of the
    collection that List returns, computed in [int]: the arithmetic sum
    reduced to the 64-bit signed range, which is the arithmetic sum itself
    whenever that is an [int]; on the empty collection it returns 0.
    Summarize leaves the world as it is, whatever the request. *)
Theorem summary_is_wrapped_sum {Doc : Type} {RT : Runtime Doc}
    (w : World Doc) (expenses : list Expense) :
  loadExpenses w = inr expenses →
  listExpensesHandler getRequest w = (OkExpenses expenses, w) ∧
  summaryExpensesHandler getRequest w
  = (OkTotal (GoInt.wrap (sum_amounts expenses)), w) ∧
  (GoInt.in_range (sum_amounts expenses) →
   summaryExpensesHandler getRequest w = (OkTotal (sum_amounts expenses), w)) ∧
  (expenses = [] → summaryExpensesHandler getRequest w = (OkTotal 0, w)) ∧
  (∀ r, (summaryExpensesHandler r w).2 = w).
Proof.
  intros Hload.
  assert (summaryExpensesHandler getRequest w
          = (OkTotal (GoInt.wrap (sum_amounts expenses)), w)) as Hsum.
  { unfold summaryExpensesHandler. simpl. by rewrite Hload, totalSum_loop_wrap. }
  split_and!.
  - unfold listExpensesHandler. simpl. by rewrite Hload.
  - done.
  - intros Hrange. by rewrite Hsum, GoIntFacts.wrap_id.
  - intros ->. by rewrite Hsum.
  - intros r. unfold summaryExpensesHandler.
    case_bool_decide; [done|]. by rewrite Hload.
Qed.

Lemma summary_is_wrapped_sum_witness :
  listExpensesHandler (RT := plainRuntime) getRequest
    (worldOf [expenseWithAmount 1 350; expenseWithAmount 2 (-50)])
  = (OkExpenses [expenseWithAmount 1 350; expenseWithAmount 2 (-50)],
     worldOf [expenseWithAmount 1 350; expenseWithAmount 2 (-50)]) ∧
  summaryExpensesHandler (RT := plainRuntime) getRequest
    (worldOf [expenseWithAmount 1 350; expenseWithAmount 2 (-50)])
  = (OkTotal 300, worldOf [expenseWithAmount 1 350; expenseWithAmount 2 (-50)]).
Proof.
  destruct (summary_is_wrapped_sum (RT := plainRuntime)
              (worldOf [expenseWithAmount 1 350; expenseWithAmount 2 (-50)])
              [expenseWithAmount 1 350; expenseWithAmount 2 (-50)] eq_refl)
    as (Hlist & _ & Hsum & _).
  split; [exact Hlist|]. apply Hsum. by vm_compute.
Defined.

(** ** C8: what Create takes from the payload *)

(** C8: Create takes the description and the amount from the payload and
    nothing else: two payloads that agree on these give the same response
    and the same world.  The record returned has the id
    [generateUniqueID] computes from the loaded collection, and its
    created_at and updated_at are the two clock readings of the call. *)
Theorem create_ignores_client_fields {Doc : Type} {RT : Runtime Doc} (w : World Doc) :
  (∀ payload payload' : Expense,
     Description payload' = Description payload →
     Amount payload' = Amount payload →
     addExpenseHandler (postRequest payload') w
     = addExpenseHandler (postRequest payload) w) ∧
  (∀ (expenses : list Expense) (payload : Expense) (data : Doc),
     loadExpenses w = inr expenses → writable w = true →
     json_MarshalIndent (expenses ++ [new_expense expenses payload w]) = Some data →
     ∃ e,
       addExpenseHandler (postRequest payload) w
       = (Created e, mkWorld (Present data) true (S (S (ticks w)))) ∧
       ID e = generateUniqueID expenses ∧
       CreatedAt e = time_clock (ticks w) ∧
       UpdatedAt e = time_clock (S (ticks w)) ∧
       Description e = Description payload ∧
       Amount e = Amount payload).
Proof.
  split.
  - intros payload payload' Hd Ha. unfold addExpenseHandler. simpl.
    destruct (loadExpenses w) as [err|expenses]; [done|].
    unfold set_UpdatedAt, set_CreatedAt, set_ID. simpl. by rewrite Hd, Ha.
  - intros expenses payload data Hload Hw Hm.
    exists (new_expense expenses payload w). split; [|done].
    by apply addExpenseHandler_ok.
Qed.

Lemma create_ignores_client_fields_witness :
  addExpenseHandler (RT := plainRuntime)
    (postRequest (mkExpense 99 "coffee" 350 7 8)) emptyWorld
  = addExpenseHandler (RT := plainRuntime)
      (postRequest (mkExpense 0 "coffee" 350 0 0)) emptyWorld ∧
  ∃ e,
    addExpenseHandler (RT := plainRuntime)
      (postRequest (mkExpense 99 "coffee" 350 7 8)) emptyWorld
    = (Created e, mkWorld (Present [mkExpense 1 "coffee" 350 0 1]) true 2) ∧
    ID e = 1 ∧ CreatedAt e = 0 ∧ UpdatedAt e = 1 ∧
    Description e = "coffee" ∧ Amount e = 350.
Proof.
  destruct (create_ignores_client_fields (RT := plainRuntime) emptyWorld)
    as [Hsame Hrecord].
  split.
  - exact (Hsame (mkExpense 0 "coffee" 350 0 0) (mkExpense 99 "coffee" 350 7 8)
             eq_refl eq_refl).
  - exact (Hrecord [] (mkExpense 99 "coffee" 350 7 8)
             [mkExpense 1 "coffee" 350 0 1] eq_refl eq_refl eq_refl).
Defined.

(** ** C9: saving what was loaded *)

(** C9: under the round-trip contract of the codec, for every document that
    decodes and a file that can be written, saving the loaded collection
    leaves a store that loads to the same collection, the same records in
    the same order, whatever the bytes written. *)
Theorem save_load_round_trip {Doc : Type} {RT : Runtime Doc}
    (w : World Doc) (data : Doc) (expenses : list Expense) :
  codec_round_trip (RT := RT) →
  expenseFile w = Present data → json_Unmarshal data = Some expenses →
  writable w = true →
  loadExpenses w = inr expenses ∧
  loadExpenses (saveExpenses expenses w).2 = inr expenses.
Proof.
  intros Hround Hfile Hdec Hw.
  assert (loadExpenses w = inr expenses) as Hload
    by (unfold loadExpenses; by rewrite Hfile, Hdec).
  split; [done|].
  destruct (saveExpenses_cases_writable expenses w Hw)
    as [(data' & Hm & ->)|(_ & ->)]; simpl.
  - apply loadExpenses_Present. by apply Hround.
  - done.
Qed.

Lemma save_load_round_trip_witness :
  loadExpenses (RT := indentRuntime)
    (mkWorld (Present (4%nat, [expenseWithID 3; expenseWithID 1])) true 0)
  = inr [expenseWithID 3; expenseWithID 1] ∧
  loadExpenses (RT := indentRuntime)
    (saveExpenses (RT := indentRuntime) [expenseWithID 3; expenseWithID 1]
       (mkWorld (Present (4%nat, [expenseWithID 3; expenseWithID 1])) true 0)).2
  = inr [expenseWithID 3; expenseWithID 1].
Proof.
  apply (save_load_round_trip (RT := indentRuntime)
           (mkWorld (Present (4%nat, [expenseWithID 3; expenseWithID 1])) true 0)
           (4%nat, [expenseWithID 3; expenseWithID 1])
           [expenseWithID 3; expenseWithID 1]); [|reflexivity..].
  intros expenses data. simpl. by intros [= <-].
Defined.

(** Without the permission to write, on a medium whose writes fail after
    the truncation, the same save loses the collection. *)
Lemma failed_save_loses_collection :
  loadExpenses (RT := truncatingRuntime)
    (mkWorld (Present [expenseWithID 3; expenseWithID 1]) false 0)
  = inr [expenseWithID 3; expenseWithID 1] ∧
  saveExpenses (RT := truncatingRuntime) [expenseWithID 3; expenseWithID 1]
    (mkWorld (Present [expenseWithID 3; expenseWithID 1]) false 0)
  = (Some WriteFileError, mkWorld Truncated false 0) ∧
  loadExpenses (RT := truncatingRuntime) (mkWorld Truncated false 0)
  = inl UnmarshalError.
Proof. by split_and!. Qed.

(** The document written need not be the document read. *)
Lemma saved_document_may_differ :
  expenseFile
    (saveExpenses (RT := indentRuntime) [expenseWithID 3; expenseWithID 1]
       (mkWorld (Present (4%nat, [expenseWithID 3; expenseWithID 1])) true 0)).2
  = Present (1%nat, [expenseWithID 3; expenseWithID 1]).
Proof. reflexivity. Qed.

(** ** C7: a store without a file *)

Section Indistinguishable.
Context {Doc : Type} {RT : Runtime Doc}.
Implicit Types (w : World Doc) (r : Request).

Lemma same_collection_refl w : same_collection w w.
Proof. by unfold same_collection. Qed.






End Indistinguishable.



(** ** The running maximum after an append *)

Lemma maxID_loop_snoc (expenses : list Expense) (e : Expense) :
  maxID_loop (expenses ++ [e]) = Z.max (maxID_loop expenses) (ID e).
Proof.
  unfold maxID_loop. rewrite foldl_app. simpl. case_bool_decide; lia.
Qed.

(** ** The scenario of the specification, run on the concrete runtime

    Empty store, Create("coffee", 350), List, Summarize, Update(1, "tea",
    300), Delete(1), List. *)
Example coffee_scenario :
  (serve_all (RT := plainRuntime)
     [(RouteAdd, postRequest (mkExpense 0 "coffee" 350 0 0));
      (RouteList, getRequest);
      (RouteSummary, getRequest);
      (RouteUpdate, putRequest 1 (mkExpense 0 "tea" 300 0 0));
      (RouteDelete, deleteRequest 1);
      (RouteList, getRequest)] emptyWorld).1
  = [Created (mkExpense 1 "coffee" 350 0 1);
     OkExpenses [mkExpense 1 "coffee" 350 0 1];
     OkTotal 350;
     OkExpenses [mkExpense 1 "tea" 300 0 2];
     NoContent;
     OkExpenses []].
Proof. reflexivity. Qed.

(** * Further properties of the handlers *)

(** ** The outcomes of the three mutating handlers *)

Section Outcomes.
Context {Doc : Type} {RT : Runtime Doc}.
Implicit Types (w : World Doc) (r : Request) (expenses : list Expense).

Local Ltac save_outcome :=
  match goal with
  | |- context [saveExpenses ?l ?w] =>
      let data := fresh "data" in
      let Hm := fresh "Hm" in
      let Hw := fresh "Hw" in
      let Hs := fresh "Hs" in
      let err := fresh "err" in
      let file' := fresh "file'" in
      let Hfile := fresh "Hfile" in
      destruct (saveExpenses_cases l w)
        as [(data & Hm & Hw & Hs)|(err & file' & Hs & Hfile)];
      rewrite Hs; simpl in *
  end.

(** Create: rejected before anything happens, or the collection was loaded
    and the save of the extended collection succeeded or failed; a failed
    save leaves the file as it was or truncated. *)
Lemma addExpenseHandler_outcome r w :
  (∃ status message,
     addExpenseHandler r w = (HttpError status message, w) ∧
     (status = StatusInternalServerError → ∃ err, loadExpenses w = inl err))
  ∨ (∃ payload expenses,
       rMethod r = POST ∧ rBody r = Some payload ∧ loadExpenses w = inr expenses ∧
       ((∃ data,
           json_MarshalIndent (expenses ++ [new_expense expenses payload w]) = Some data ∧
           writable w = true ∧
           addExpenseHandler r w
           = (Created (new_expense expenses payload w),
              mkWorld (Present data) true (S (S (ticks w)))))
        ∨ (∃ file',
             addExpenseHandler r w
             = (HttpError StatusInternalServerError "Error saving expense",
                mkWorld file' (writable w) (S (S (ticks w)))) ∧
             (file' = expenseFile w
              ∨ (writable w = false ∧ os_writeFailureTruncates = true ∧
                 file' = Truncated))))).
Proof.
  unfold addExpenseHandler.
  case_bool_decide as Hmeth; [left; by eexists _, _|].
  destruct (rBody r) as [payload|] eqn:Hbody; [|left; by eexists _, _].
  destruct (loadExpenses w) as [err|expenses] eqn:Hload.
  { left. eexists _, _. split; [done|]. by eexists. }
  right. exists payload, expenses. split_and!; [done..|].
  simpl. save_outcome.
  - left. exists data. by split_and!.
  - right. by exists file'.
Qed.

Lemma updateExpenseHandler_outcome r w :
  (∃ status message,
     updateExpenseHandler r w = (HttpError status message, w) ∧
     (status = StatusInternalServerError → ∃ err, loadExpenses w = inl err) ∧
     (status = StatusNotFound →
      ∃ id payload expenses,
        rMethod r = PUT ∧ rPathID r = Some id ∧ rBody r = Some payload ∧
        loadExpenses w = inr expenses ∧ find_index id expenses = None))
  ∨ (∃ id payload expenses i,
       rMethod r = PUT ∧ rPathID r = Some id ∧ rBody r = Some payload ∧
       loadExpenses w = inr expenses ∧ find_index id expenses = Some i ∧
       ((∃ data,
           json_MarshalIndent
             (alter (update_fields payload (time_clock (ticks w))) i expenses)
           = Some data ∧
           writable w = true ∧
           updateExpenseHandler r w
           = (OkExpenses (alter (update_fields payload (time_clock (ticks w))) i expenses),
              mkWorld (Present data) true (S (ticks w))))
        ∨ (∃ file',
             updateExpenseHandler r w
             = (HttpError StatusInternalServerError "Error saving expenses",
                mkWorld file' (writable w) (S (ticks w))) ∧
             (file' = expenseFile w
              ∨ (writable w = false ∧ os_writeFailureTruncates = true ∧
                 file' = Truncated))))).
Proof.
  unfold updateExpenseHandler.
  case_bool_decide as Hmeth; [left; eexists _, _; by split_and!|].
  destruct (rPathID r) as [id|] eqn:Hid; [|left; eexists _, _; by split_and!].
  destruct (rBody r) as [payload|] eqn:Hbody; [|left; eexists _, _; by split_and!].
  destruct (loadExpenses w) as [err|expenses] eqn:Hload.
  { left. eexists _, _. split_and!; [done| |done]. by eexists. }
  destruct (find_index id expenses) as [i|] eqn:Hfind.
  - right. exists id, payload, expenses, i. split_and!; [done..|].
    simpl. save_outcome.
    + left. exists data. by split_and!.
    + right. by exists file'.
  - left. eexists _, _. split_and!; [done..|].
    intros _. by exists id, payload, expenses.
Qed.

Lemma deleteExpenseHandler_outcome r w :
  (∃ status message,
     deleteExpenseHandler r w = (HttpError status message, w) ∧
     (status = StatusInternalServerError → ∃ err, loadExpenses w = inl err) ∧
     (status = StatusNotFound →
      ∃ id expenses,
        rMethod r = DELETE ∧ rPathID r = Some id ∧
        loadExpenses w = inr expenses ∧ find_index id expenses = None))
  ∨ (∃ id expenses i,
       rMethod r = DELETE ∧ rPathID r = Some id ∧
       loadExpenses w = inr expenses ∧ find_index id expenses = Some i ∧
       ((∃ data,
           json_MarshalIndent (remove_at i expenses) = Some data ∧
           writable w = true ∧
           deleteExpenseHandler r w
           = (NoContent, mkWorld (Present data) true (ticks w)))
        ∨ (∃ file',
             deleteExpenseHandler r w
             = (HttpError StatusInternalServerError "Error saving expenses",
                mkWorld file' (writable w) (ticks w)) ∧
             (file' = expenseFile w
              ∨ (writable w = false ∧ os_writeFailureTruncates = true ∧
                 file' = Truncated))))).
Proof.
  unfold deleteExpenseHandler.
  case_bool_decide as Hmeth; [left; eexists _, _; by split_and!|].
  destruct (rPathID r) as [id|] eqn:Hid; [|left; eexists _, _; by split_and!].
  destruct (loadExpenses w) as [err|expenses] eqn:Hload.
  { left. eexists _, _. split_and!; [done| |done]. by eexists. }
  destruct (find_index id expenses) as [i|] eqn:Hfind.
  - right. exists id, expenses, i. split_and!; [done..|].
    save_outcome.
    + left. exists data. by split_and!.
    + right. by exists file'.
  - left. eexists _, _. split_and!; [done..|].
    intros _. by exists id, expenses.
Qed.

(** The two reading handlers return the world they were given. *)
Lemma listExpensesHandler_world r w : (listExpensesHandler r w).2 = w.
Proof.
  unfold listExpensesHandler. case_bool_decide; [done|].
  by destruct (loadExpenses w).
Qed.

Lemma summaryExpensesHandler_world r w : (summaryExpensesHandler r w).2 = w.
Proof.
  unfold summaryExpensesHandler. case_bool_decide; [done|].
  by destruct (loadExpenses w).
Qed.

End Outcomes.

(** ** Error responses *)

(** X1: a request answered with status 400, 404 or 405 leaves the world
    exactly as it was.  A request answered with any error leaves the
    permission to write, and the file is the one before unless a write
    failed after truncating it; then the file is the truncated one. *)
Theorem error_response_leaves_store {Doc : Type} {RT : Runtime Doc}
    (route : Route) (r : Request) (w w' : World Doc) (status : Z) (message : string) :
  serve route r w = (HttpError status message, w') →
  (status ≠ StatusInternalServerError → w' = w) ∧
  writable w' = writable w ∧
  (expenseFile w' = expenseFile w
   ∨ (writable w = false ∧ os_writeFailureTruncates = true ∧
      expenseFile w' = Truncated)).
Proof.
  destruct route; simpl; intros Hserve.
  - pose proof (listExpensesHandler_world r w) as Hw.
    rewrite Hserve in Hw. simpl in Hw. subst w'. split_and!; [done..|by left].
  - destruct (addExpenseHandler_outcome r w)
      as [(s & m & Hr & _)|(p & l & _ & _ & _ & [(d & _ & _ & Hr)|(f & Hr & Hf)])];
      rewrite Hr in Hserve; simplify_eq; split_and!; try done; by left.
  - pose proof (summaryExpensesHandler_world r w) as Hw.
    rewrite Hserve in Hw. simpl in Hw. subst w'. split_and!; [done..|by left].
  - destruct (updateExpenseHandler_outcome r w)
      as [(s & m & Hr & _)|(id & p & l & i & _ & _ & _ & _ & _ & [(d & _ & _ & Hr)|(f & Hr & Hf)])];
      rewrite Hr in Hserve; simplify_eq; split_and!; try done; by left.
  - destruct (deleteExpenseHandler_outcome r w)
      as [(s & m & Hr & _)|(id & l & i & _ & _ & _ & _ & [(d & _ & _ & Hr)|(f & Hr & Hf)])];
      rewrite Hr in Hserve; simplify_eq; split_and!; try done; by left.
Qed.

Lemma error_response_leaves_store_witness :
  (StatusNotFound ≠ StatusInternalServerError →
   worldOf [expenseWithID 1] = worldOf [expenseWithID 1]) ∧
  writable (worldOf [expenseWithID 1]) = writable (worldOf [expenseWithID 1]) ∧
  (expenseFile (worldOf [expenseWithID 1]) = expenseFile (worldOf [expenseWithID 1])
   ∨ (writable (worldOf [expenseWithID 1]) = false ∧
      os_writeFailureTruncates (Runtime := plainRuntime) = true ∧
      expenseFile (worldOf [expenseWithID 1]) = Truncated)).
Proof.
  exact (error_response_leaves_store (RT := plainRuntime) RouteDelete
           (deleteRequest 7) (worldOf [expenseWithID 1]) (worldOf [expenseWithID 1])
           StatusNotFound "Expense not found" eq_refl).
Defined.

(** A Create whose write fails after the truncation: the answer is 500 and
    the file is left truncated. *)
Lemma failed_create_truncates :
  serve (RT := truncatingRuntime) RouteAdd (postRequest zeroExpense)
    (mkWorld (Present [expenseWithID 1]) false 0)
  = (HttpError StatusInternalServerError "Error saving expense",
     mkWorld Truncated false 2).
Proof. reflexivity. Qed.

(** X2: Update and Delete answer 404 "Expense not found" exactly when the
    method is right, the path holds an integer, the body (for Update)
    decodes, the store loads, and no record of the collection has the id. *)
Theorem not_found_exactly_when_absent {Doc : Type} {RT : Runtime Doc}
    (r : Request) (w : World Doc) :
  ((updateExpenseHandler r w).1 = HttpError StatusNotFound "Expense not found" ↔
   ∃ id payload expenses,
     rMethod r = PUT ∧ rPathID r = Some id ∧ rBody r = Some payload ∧
     loadExpenses w = inr expenses ∧ id ∉ ids expenses) ∧
  ((deleteExpenseHandler r w).1 = HttpError StatusNotFound "Expense not found" ↔
   ∃ id expenses,
     rMethod r = DELETE ∧ rPathID r = Some id ∧
     loadExpenses w = inr expenses ∧ id ∉ ids expenses).
Proof.
  split; split.
  - intros Hresp.
    destruct (updateExpenseHandler_outcome r w)
      as [(s & m & Hr & _ & Hnf)|(id & p & l & i & _ & _ & _ & _ & _ & [(d & _ & _ & Hr)|(f & Hr & _)])];
      rewrite Hr in Hresp; simpl in Hresp; [|done..].
    injection Hresp as -> _.
    destruct (Hnf eq_refl) as (id & p & l & Hm & Hid & Hb & Hl & Hfind).
    exists id, p, l. split_and!; [done..|]. by apply find_index_None.
  - intros (id & p & l & Hm & Hid & Hb & Hl & Habsent).
    apply find_index_None in Habsent.
    unfold updateExpenseHandler. by rewrite Hm, Hid, Hb, Hl, Habsent.
  - intros Hresp.
    destruct (deleteExpenseHandler_outcome r w)
      as [(s & m & Hr & _ & Hnf)|(id & l & i & _ & _ & _ & _ & [(d & _ & _ & Hr)|(f & Hr & _)])];
      rewrite Hr in Hresp; simpl in Hresp; [|done..].
    injection Hresp as -> _.
    destruct (Hnf eq_refl) as (id & l & Hm & Hid & Hl & Hfind).
    exists id, l. split_and!; [done..|]. by apply find_index_None.
  - intros (id & l & Hm & Hid & Hl & Habsent).
    apply find_index_None in Habsent.
    unfold deleteExpenseHandler. by rewrite Hm, Hid, Hl, Habsent.
Qed.

(** X3: when the file cannot be read or decoded, every request is answered
    with an error and the world is left as it is; the requests that pass
    the checks of method, path and body get 500 "Error loading expenses". *)
Theorem load_failure_fails_every_request {Doc : Type} {RT : Runtime Doc}
    (w : World Doc) (err : error) :
  loadExpenses w = inl err →
  (∀ (route : Route) (r : Request),
     ∃ status message, serve route r w = (HttpError status message, w)) ∧
  (∀ (id : Z) (payload : Expense) (route : Route) (r : Request),
     (route, r) ∈ [(RouteList, getRequest); (RouteSummary, getRequest);
                   (RouteAdd, postRequest payload);
                   (RouteUpdate, putRequest id payload);
                   (RouteDelete, deleteRequest id)] →
     serve route r w
     = (HttpError StatusInternalServerError "Error loading expenses", w)).
Proof.
  intros Hload. split.
  - intros route r. destruct route; simpl.
    + unfold listExpensesHandler. rewrite Hload. case_bool_decide; by eexists _, _.
    + unfold addExpenseHandler. rewrite Hload. case_bool_decide; [by eexists _, _|].
      destruct (rBody r); by eexists _, _.
    + unfold summaryExpensesHandler. rewrite Hload. case_bool_decide; by eexists _, _.
    + unfold updateExpenseHandler. rewrite Hload. case_bool_decide; [by eexists _, _|].
      destruct (rPathID r); [|by eexists _, _]. destruct (rBody r); by eexists _, _.
    + unfold deleteExpenseHandler. rewrite Hload. case_bool_decide; [by eexists _, _|].
      destruct (rPathID r); by eexists _, _.
  - intros id payload route r Hin.
    repeat (apply elem_of_cons in Hin as [[= -> ->]|Hin]); simpl.
    + unfold listExpensesHandler. simpl. by rewrite Hload.
    + unfold summaryExpensesHandler. simpl. by rewrite Hload.
    + unfold addExpenseHandler. simpl. by rewrite Hload.
    + unfold updateExpenseHandler. simpl. by rewrite Hload.
    + unfold deleteExpenseHandler. simpl. by rewrite Hload.
    + by apply elem_of_nil in Hin.
Qed.

Lemma load_failure_fails_every_request_witness :
  (∀ (route : Route) (r : Request),
     ∃ status message,
       serve (RT := plainRuntime) route r (mkWorld Unreadable true 0)
       = (HttpError status message, mkWorld Unreadable true 0)) ∧
  serve (RT := plainRuntime) RouteDelete (deleteRequest 1) (mkWorld Unreadable true 0)
  = (HttpError StatusInternalServerError "Error loading expenses",
     mkWorld Unreadable true 0).
Proof.
  destruct (load_failure_fails_every_request (RT := plainRuntime)
              (mkWorld Unreadable true 0) ReadFileError eq_refl) as [Hall Hwell].
  split; [exact Hall|].
  apply (Hwell 1 zeroExpense RouteDelete (deleteRequest 1)).
  do 4 apply list_elem_of_further. apply list_elem_of_here.
Defined.

(** ** Success responses *)

(** X4: a success response of a mutating handler means the new collection
    was serialised and is the content of the file: 201 with the record
    appended to the loaded collection, 200 with the list Update returns,
    204 with the loaded collection less the first match. *)
Theorem success_is_durable {Doc : Type} {RT : Runtime Doc}
    (r : Request) (w w' : World Doc) :
  (∀ e, addExpenseHandler r w = (Created e, w') →
        ∃ payload expenses data,
          rBody r = Some payload ∧ loadExpenses w = inr expenses ∧
          e = new_expense expenses payload w ∧
          json_MarshalIndent (expenses ++ [e]) = Some data ∧
          expenseFile w' = Present data) ∧
  (∀ expenses', updateExpenseHandler r w = (OkExpenses expenses', w') →
        ∃ id payload expenses i data,
          rPathID r = Some id ∧ rBody r = Some payload ∧
          loadExpenses w = inr expenses ∧ find_index id expenses = Some i ∧
          expenses' = alter (update_fields payload (time_clock (ticks w))) i expenses ∧
          json_MarshalIndent expenses' = Some data ∧
          expenseFile w' = Present data) ∧
  (deleteExpenseHandler r w = (NoContent, w') →
        ∃ id expenses i data,
          rPathID r = Some id ∧
          loadExpenses w = inr expenses ∧ find_index id expenses = Some i ∧
          json_MarshalIndent (remove_at i expenses) = Some data ∧
          expenseFile w' = Present data).
Proof.
  split_and!.
  - intros e He.
    destruct (addExpenseHandler_outcome r w)
      as [(s & m & Hr & _)|(p & l & _ & Hb & Hl & [(d & Hm & _ & Hr)|(f & Hr & _)])];
      rewrite Hr in He; simplify_eq.
    by exists p, l, d.
  - intros expenses' He.
    destruct (updateExpenseHandler_outcome r w)
      as [(s & m & Hr & _)|(id & p & l & i & _ & Hid & Hb & Hl & Hf & [(d & Hm & _ & Hr)|(f & Hr & _)])];
      rewrite Hr in He; simplify_eq.
    by exists id, p, l, i, d.
  - intros He.
    destruct (deleteExpenseHandler_outcome r w)
      as [(s & m & Hr & _)|(id & l & i & _ & Hid & Hl & Hf & [(d & Hm & _ & Hr)|(f & Hr & _)])];
      rewrite Hr in He; simplify_eq.
    by exists id, l, i, d.
Qed.

Lemma success_is_durable_witness :
  ∃ payload expenses data,
    rBody (postRequest (mkExpense 0 "coffee" 350 0 0)) = Some payload ∧
    loadExpenses (RT := plainRuntime) emptyWorld = inr expenses ∧
    mkExpense 1 "coffee" 350 0 1
    = new_expense (RT := plainRuntime) expenses payload emptyWorld ∧
    Some (expenses ++ [mkExpense 1 "coffee" 350 0 1]) = Some data ∧
    expenseFile (mkWorld (Present [mkExpense 1 "coffee" 350 0 1]) true 2)
    = Present data.
Proof.
  destruct (success_is_durable (RT := plainRuntime)
              (postRequest (mkExpense 0 "coffee" 350 0 0)) emptyWorld
              (mkWorld (Present [mkExpense 1 "coffee" 350 0 1]) true 2))
    as [Hadd _].
  exact (Hadd (mkExpense 1 "coffee" 350 0 1) eq_refl).
Defined.

(** X5: List and Summary never change the world: after any sequence of
    requests to these two routes, whatever their methods and bodies, the
    file, the permission and the clock position are the ones before. *)
Theorem reading_never_changes_world {Doc : Type} {RT : Runtime Doc}
    (reqs : list (Route * Request)) (w : World Doc) :
  Forall (λ rr : Route * Request, read_only rr.1 = true) reqs →
  (serve_all reqs w).2 = w.
Proof.
  induction 1 as [|[route r] reqs Hro _ IH]; simpl; [done|].
  assert ((serve route r w).2 = w) as Hstep.
  { destruct route; simpl in *; try done.
    - apply listExpensesHandler_world.
    - apply summaryExpensesHandler_world. }
  destruct (serve route r w) as [resp w1]. simpl in Hstep. subst w1.
  by destruct (serve_all reqs w).
Qed.

Lemma reading_never_changes_world_witness :
  (serve_all (RT := plainRuntime)
     [(RouteList, getRequest); (RouteSummary, postRequest zeroExpense);
      (RouteList, deleteRequest 1)]
     (worldOf [expenseWithID 1])).2
  = worldOf [expenseWithID 1].
Proof.
  apply (reading_never_changes_world (RT := plainRuntime)).
  repeat constructor.
Defined.

(** ** Saving and loading *)

(** X6: under the round-trip contract of the codec, a save that can
    serialise and write replaces whatever the file, absent or readable,
    held: loading afterwards returns the collection saved, record for
    record. *)
Theorem save_then_load {Doc : Type} {RT : Runtime Doc}
    (expenses : list Expense) (w : World Doc) :
  codec_round_trip (RT := RT) →
  is_Some (json_MarshalIndent (Doc := Doc) expenses) →
  writable w = true → expenseFile w ≠ Unreadable →
  (saveExpenses expenses w).1 = None ∧
  loadExpenses (saveExpenses expenses w).2 = inr expenses.
Proof.
  intros Hround [data Hm] Hw _.
  rewrite (saveExpenses_ok expenses w data Hm Hw). split; [done|].
  apply loadExpenses_Present. by apply Hround.
Qed.

Lemma save_then_load_witness :
  (saveExpenses (RT := indentRuntime) [expenseWithID 2]
     (mkWorld (Present (4%nat, [expenseWithID 9; expenseWithID 8])) true 0)).1 = None ∧
  loadExpenses (RT := indentRuntime)
    (saveExpenses (RT := indentRuntime) [expenseWithID 2]
       (mkWorld (Present (4%nat, [expenseWithID 9; expenseWithID 8])) true 0)).2
  = inr [expenseWithID 2].
Proof.
  apply (save_then_load (RT := indentRuntime)); [|by eexists|reflexivity|discriminate].
  intros expenses data. simpl. by intros [= <-].
Defined.

(** ** More on [generateUniqueID] *)

(** X7: [generateUniqueID] depends only on which ids occur: two
    collections with the same set of ids, in any order and with any
    repetition, get the same new id. *)
Theorem generateUniqueID_same_id_set (l1 l2 : list Expense) :
  (∀ id, id ∈ ids l1 ↔ id ∈ ids l2) →
  generateUniqueID l1 = generateUniqueID l2.
Proof.
  intros Hset. unfold generateUniqueID. f_equal.
  assert (∀ k1 k2 : list Expense,
            (∀ id, id ∈ ids k1 → id ∈ ids k2) → maxID_loop k1 ≤ maxID_loop k2) as Hle.
  { intros k1 k2 Hsub.
    destruct (maxID_loop_attained k1) as [->|Hin]; [apply maxID_loop_nonneg|].
    by apply maxID_loop_upper, Hsub. }
  apply Z.le_antisymm; apply Hle; intros id; apply Hset.
Qed.

Lemma generateUniqueID_same_id_set_witness :
  generateUniqueID [expenseWithID 3; expenseWithID 1; expenseWithID 3]
  = generateUniqueID [expenseWithID 1; expenseWithID 3].
Proof.
  apply generateUniqueID_same_id_set. intros id. unfold ids. simpl.
  rewrite !elem_of_cons, !elem_of_nil. tauto.
Defined.

(** ** Sequences of requests *)

Lemma maxID_loop_below (bound : Z) (expenses : list Expense) :
  0 < bound → Forall (λ e, ID e < bound) expenses → maxID_loop expenses < bound.
Proof.
  intros Hpos Hall.
  destruct (maxID_loop_attained expenses) as [->|Hin]; [done|].
  apply list_elem_of_fmap in Hin as (e & -> & He).
  rewrite Forall_forall in Hall. by apply Hall.
Qed.

Lemma totalSum_loop_snoc (expenses : list Expense) (e : Expense) :
  totalSum_loop (expenses ++ [e]) = GoInt.add (totalSum_loop expenses) (Amount e).
Proof. unfold totalSum_loop. by rewrite foldl_app. Qed.

(** X8: two Create calls in a row get consecutive ids, as long as the ids
    of the collection are below [MaxInt - 1]; both records are appended, in
    the order of the calls. *)
Theorem consecutive_creates_consecutive_ids {Doc : Type} {RT : Runtime Doc}
    (w : World Doc) (expenses : list Expense) (a b : Expense) :
  codec_round_trip (RT := RT) → marshal_total (RT := RT) →
  loadExpenses w = inr expenses → writable w = true →
  Forall (λ e, ID e < GoInt.MaxInt - 1) expenses →
  ∃ ea eb w',
    serve_all [(RouteAdd, postRequest a); (RouteAdd, postRequest b)] w
    = ([Created ea; Created eb], w') ∧
    ID eb = ID ea + 1 ∧
    loadExpenses w' = inr (expenses ++ [ea; eb]).
Proof.
  intros Hround Htotal Hload Hw Hall.
  destruct (add_transaction Hround Htotal w expenses a Hload Hw)
    as (w1 & Hs1 & Hl1 & Hw1 & _).
  set (ea := new_expense expenses a w) in *.
  destruct (add_transaction Hround Htotal w1 _ b Hl1 Hw1) as (w2 & Hs2 & Hl2 & _).
  set (eb := new_expense (expenses ++ [ea]) b w1) in *.
  pose proof (maxID_loop_nonneg expenses) as Hnonneg.
  pose proof (maxID_loop_below (GoInt.MaxInt - 1) expenses eq_refl Hall) as Hbelow.
  assert (ID ea = maxID_loop expenses + 1) as Hida.
  { subst ea. simpl. unfold generateUniqueID.
    apply GoIntFacts.add_succ_small. lia. }
  assert (maxID_loop (expenses ++ [ea]) = maxID_loop expenses + 1) as Hmax.
  { rewrite maxID_loop_snoc, Hida. lia. }
  assert (ID eb = ID ea + 1) as Hidb.
  { change (ID eb) with (generateUniqueID (expenses ++ [ea])).
    unfold generateUniqueID. rewrite Hmax, Hida.
    apply GoIntFacts.add_succ_small. lia. }
  exists ea, eb, w2. split_and!; [|done|by rewrite <- app_assoc in Hl2].
  simpl. by rewrite Hs1, Hs2.
Qed.

Lemma consecutive_creates_consecutive_ids_witness :
  ∃ ea eb w',
    serve_all (RT := plainRuntime)
      [(RouteAdd, postRequest zeroExpense); (RouteAdd, postRequest zeroExpense)]
      (worldOf [expenseWithID 7; expenseWithID 3])
    = ([Created ea; Created eb], w') ∧
    ID eb = ID ea + 1 ∧
    loadExpenses (RT := plainRuntime) w'
    = inr ([expenseWithID 7; expenseWithID 3] ++ [ea; eb]).
Proof.
  apply (consecutive_creates_consecutive_ids (RT := plainRuntime)
           (worldOf [expenseWithID 7; expenseWithID 3])
           [expenseWithID 7; expenseWithID 3] zeroExpense zeroExpense
           plain_round_trip plain_marshal_total eq_refl eq_refl).
  repeat constructor.
Defined.

(** X9: Create followed by Delete of the id just assigned restores the
    collection, when the ids of the collection are below [MaxInt]: the new
    id is not among them, so the scan stops at the appended record. *)
Theorem create_then_delete_restores {Doc : Type} {RT : Runtime Doc}
    (w : World Doc) (expenses : list Expense) (payload : Expense) :
  codec_round_trip (RT := RT) → marshal_total (RT := RT) →
  loadExpenses w = inr expenses → writable w = true →
  Forall (λ e, ID e < GoInt.MaxInt) expenses →
  ∃ e w',
    serve_all [(RouteAdd, postRequest payload);
               (RouteDelete, deleteRequest (generateUniqueID expenses))] w
    = ([Created e; NoContent], w') ∧
    ID e = generateUniqueID expenses ∧
    loadExpenses w' = inr expenses.
Proof.
  intros Hround Htotal Hload Hw Hall.
  destruct (add_transaction Hround Htotal w expenses payload Hload Hw)
    as (w1 & Hs1 & Hl1 & Hw1 & _).
  set (e := new_expense expenses payload w) in *.
  assert (find_index (generateUniqueID expenses) (expenses ++ [e])
          = Some (length expenses)) as Hfind.
  { apply find_index_snoc_fresh; [by apply generateUniqueID_fresh|done]. }
  destruct (delete_transaction Hround Htotal w1 _ _ _ Hl1 Hw1 Hfind)
    as (w2 & Hs2 & Hl2 & _).
  exists e, w2. split_and!; [|done|by rewrite remove_at_snoc in Hl2].
  simpl. by rewrite Hs1, Hs2.
Qed.

Lemma create_then_delete_restores_witness :
  ∃ e w',
    serve_all (RT := plainRuntime)
      [(RouteAdd, postRequest zeroExpense); (RouteDelete, deleteRequest 6)]
      (worldOf [expenseWithID 5; expenseWithID 2])
    = ([Created e; NoContent], w') ∧
    ID e = 6 ∧
    loadExpenses (RT := plainRuntime) w' = inr [expenseWithID 5; expenseWithID 2].
Proof.
  apply (create_then_delete_restores (RT := plainRuntime)
           (worldOf [expenseWithID 5; expenseWithID 2])
           [expenseWithID 5; expenseWithID 2] zeroExpense
           plain_round_trip plain_marshal_total eq_refl eq_refl).
  repeat constructor.
Defined.

(** X10: with pairwise distinct ids, a second Delete of the same id is
    answered 404: the first Delete succeeds and leaves no record with the
    id. *)
Theorem second_delete_not_found {Doc : Type} {RT : Runtime Doc}
    (w : World Doc) (expenses : list Expense) (id : Z) :
  codec_round_trip (RT := RT) → marshal_total (RT := RT) →
  loadExpenses w = inr expenses → writable w = true →
  NoDup (ids expenses) → id ∈ ids expenses →
  ∃ w',
    serve_all [(RouteDelete, deleteRequest id); (RouteDelete, deleteRequest id)] w
    = ([NoContent; HttpError StatusNotFound "Expense not found"], w') ∧
    ∃ expenses', loadExpenses w' = inr expenses' ∧ id ∉ ids expenses'.
Proof.
  intros Hround Htotal Hload Hw Hnd Hin.
  destruct (find_index_is_Some id expenses Hin) as [i Hfind].
  destruct (find_index_Some id expenses i Hfind) as (e & Hi & Hid & _).
  destruct (delete_transaction Hround Htotal w expenses id i Hload Hw Hfind)
    as (w1 & Hs1 & Hl1 & _).
  assert (id ∉ ids (remove_at i expenses)) as Hgone.
  { rewrite <- Hid. by apply removed_id_absent. }
  assert (deleteExpenseHandler (deleteRequest id) w1
          = (HttpError StatusNotFound "Expense not found", w1)) as Hs2.
  { unfold deleteExpenseHandler. simpl.
    by rewrite Hl1, (proj2 (find_index_None id _) Hgone). }
  exists w1. split; [|by eexists].
  simpl. by rewrite Hs1, Hs2.
Qed.

Lemma second_delete_not_found_witness :
  ∃ w',
    serve_all (RT := plainRuntime)
      [(RouteDelete, deleteRequest 2); (RouteDelete, deleteRequest 2)]
      (worldOf [expenseWithID 1; expenseWithID 2])
    = ([NoContent; HttpError StatusNotFound "Expense not found"], w') ∧
    ∃ expenses', loadExpenses (RT := plainRuntime) w' = inr expenses' ∧
                 2 ∉ ids expenses'.
Proof.
  apply (second_delete_not_found (RT := plainRuntime)
           (worldOf [expenseWithID 1; expenseWithID 2])
           [expenseWithID 1; expenseWithID 2] 2
           plain_round_trip plain_marshal_total eq_refl eq_refl).
  - apply NoDup_cons. split; [|apply NoDup_singleton].
    intros Hin. by apply list_elem_of_singleton in Hin.
  - apply list_elem_of_further, list_elem_of_here.
Defined.

(** X11: after a Create the total of Summary is the total before plus the
    amount of the payload, in [int] arithmetic. *)
Theorem summary_after_create {Doc : Type} {RT : Runtime Doc}
    (w : World Doc) (expenses : list Expense) (payload : Expense) :
  codec_round_trip (RT := RT) → marshal_total (RT := RT) →
  loadExpenses w = inr expenses → writable w = true →
  ∃ total e w',
    serve_all [(RouteSummary, getRequest); (RouteAdd, postRequest payload);
               (RouteSummary, getRequest)] w
    = ([OkTotal total; Created e; OkTotal (GoInt.add total (Amount payload))], w').
Proof.
  intros Hround Htotal Hload Hw.
  destruct (add_transaction Hround Htotal w expenses payload Hload Hw)
    as (w1 & Hs1 & Hl1 & _).
  assert (∀ w0 l, loadExpenses w0 = inr l →
            summaryExpensesHandler getRequest w0 = (OkTotal (totalSum_loop l), w0))
    as Hsum.
  { intros w0 l Hl. unfold summaryExpensesHandler. simpl. by rewrite Hl. }
  exists (totalSum_loop expenses), (new_expense expenses payload w), w1.
  cbn [serve_all serve].
  rewrite (Hsum w expenses Hload), Hs1, (Hsum w1 _ Hl1).
  by rewrite totalSum_loop_snoc.
Qed.

Lemma summary_after_create_witness :
  ∃ total e w',
    serve_all (RT := plainRuntime)
      [(RouteSummary, getRequest); (RouteAdd, postRequest (expenseWithAmount 0 50));
       (RouteSummary, getRequest)]
      (worldOf [expenseWithAmount 1 300])
    = ([OkTotal total; Created e;
        OkTotal (GoInt.add total (Amount (expenseWithAmount 0 50)))], w').
Proof.
  exact (summary_after_create (RT := plainRuntime)
           (worldOf [expenseWithAmount 1 300]) [expenseWithAmount 1 300]
           (expenseWithAmount 0 50)
           plain_round_trip plain_marshal_total eq_refl eq_refl).
Defined.

(** ** Delete and Update on any file, hand-edited ones included *)

Lemma count_id_split (id : Z) (l1 l2 : list Expense) :
  count_id id (l1 ++ l2) = (count_id id l1 + count_id id l2)%nat.
Proof. unfold count_id. by rewrite filter_app, length_app. Qed.

Lemma count_id_cons_eq (id : Z) (e : Expense) (l : list Expense) :
  ID e = id → count_id id (e :: l) = S (count_id id l).
Proof. intros He. unfold count_id. by rewrite filter_cons_True. Qed.

Lemma count_id_cons_ne (id : Z) (e : Expense) (l : list Expense) :
  ID e ≠ id → count_id id (e :: l) = count_id id l.
Proof. intros He. unfold count_id. by rewrite filter_cons_False. Qed.

(** X12: a successful Delete removes exactly one record with the id, even
    when several records share it, and no record with another id. *)
Theorem delete_removes_exactly_one {Doc : Type} {RT : Runtime Doc}
    (w : World Doc) (expenses : list Expense) (id : Z) :
  codec_round_trip (RT := RT) → marshal_total (RT := RT) →
  loadExpenses w = inr expenses → writable w = true → id ∈ ids expenses →
  ∃ expenses' w',
    deleteExpenseHandler (deleteRequest id) w = (NoContent, w') ∧
    loadExpenses w' = inr expenses' ∧
    count_id id expenses = S (count_id id expenses') ∧
    (∀ id', id' ≠ id → count_id id' expenses' = count_id id' expenses) ∧
    length expenses = S (length expenses').
Proof.
  intros Hround Htotal Hload Hw Hin.
  destruct (find_index_is_Some id expenses Hin) as [i Hfind].
  destruct (find_index_Some id expenses i Hfind) as (e & Hi & Hid & _).
  destruct (delete_transaction Hround Htotal w expenses id i Hload Hw Hfind)
    as (w1 & Hs1 & Hl1 & _).
  exists (remove_at i expenses), w1.
  pose proof (take_drop_middle expenses i e Hi) as Hsplit.
  split_and!; [done..| | |].
  - rewrite <- Hsplit at 1. unfold remove_at.
    rewrite !count_id_split, count_id_cons_eq by done. lia.
  - intros id' Hne. rewrite <- Hsplit at 2. unfold remove_at.
    rewrite !count_id_split, count_id_cons_ne by congruence. done.
  - rewrite <- Hsplit at 1. unfold remove_at. rewrite !length_app. simpl. lia.
Qed.

Lemma delete_removes_exactly_one_witness :
  ∃ expenses' w',
    deleteExpenseHandler (RT := plainRuntime) (deleteRequest 4)
      (worldOf [expenseWithAmount 4 10; expenseWithID 1; expenseWithAmount 4 20])
    = (NoContent, w') ∧
    loadExpenses (RT := plainRuntime) w' = inr expenses' ∧
    count_id 4 [expenseWithAmount 4 10; expenseWithID 1; expenseWithAmount 4 20]
    = S (count_id 4 expenses') ∧
    (∀ id', id' ≠ 4 →
       count_id id' expenses'
       = count_id id' [expenseWithAmount 4 10; expenseWithID 1; expenseWithAmount 4 20]) ∧
    length [expenseWithAmount 4 10; expenseWithID 1; expenseWithAmount 4 20]
    = S (length expenses').
Proof.
  apply (delete_removes_exactly_one (RT := plainRuntime)
           (worldOf [expenseWithAmount 4 10; expenseWithID 1; expenseWithAmount 4 20])
           [expenseWithAmount 4 10; expenseWithID 1; expenseWithAmount 4 20] 4
           plain_round_trip plain_marshal_total eq_refl eq_refl).
  apply list_elem_of_here.
Defined.

(** X13: of two Updates of the same id the last one wins: the collection
    after both is the original with the first match carrying the second
    description and amount, its own id and created_at, and the clock
    reading of the second call. *)
Theorem update_last_write_wins {Doc : Type} {RT : Runtime Doc}
    (w : World Doc) (expenses : list Expense) (id : Z) (p1 p2 : Expense) :
  codec_round_trip (RT := RT) → marshal_total (RT := RT) →
  loadExpenses w = inr expenses → writable w = true → id ∈ ids expenses →
  ∃ (i : nat) (e : Expense) (l1 l2 : list Expense) (w' : World Doc),
    expenses !! i = Some e ∧ ID e = id ∧
    serve_all [(RouteUpdate, putRequest id p1); (RouteUpdate, putRequest id p2)] w
    = ([OkExpenses l1; OkExpenses l2], w') ∧
    l2 = <[i := {| ID := ID e;
                   Description := Description p2;
                   Amount := Amount p2;
                   CreatedAt := CreatedAt e;
                   UpdatedAt := time_clock (S (ticks w)) |}]> expenses ∧
    loadExpenses w' = inr l2.
Proof.
  intros Hround Htotal Hload Hw Hin.
  destruct (find_index_is_Some id expenses Hin) as [i Hfind].
  destruct (find_index_Some id expenses i Hfind) as (e & Hi & Hid & _).
  destruct (update_transaction Hround Htotal w expenses id p1 i Hload Hw Hfind)
    as (w1 & Hs1 & Hl1 & Hw1 & Ht1).
  set (l1 := alter (update_fields p1 (time_clock (ticks w))) i expenses) in *.
  assert (find_index id l1 = Some i) as Hfind1.
  { rewrite <- Hfind. apply find_index_ids. apply ids_alter_update_fields. }
  destruct (update_transaction Hround Htotal w1 l1 id p2 i Hl1 Hw1 Hfind1)
    as (w2 & Hs2 & Hl2 & _).
  rewrite Ht1 in Hs2, Hl2.
  set (l2 := alter (update_fields p2 (time_clock (S (ticks w)))) i l1) in *.
  exists i, e, l1, l2, w2. split_and!; [done..| | |done].
  - cbn [serve_all serve]. by rewrite Hs1, Hs2.
  - subst l2 l1. rewrite list_alter_alter_eq.
    by rewrite (alter_as_insert _ i e).
Qed.

Lemma update_last_write_wins_witness :
  ∃ (i : nat) (e : Expense) (l1 l2 : list Expense) (w' : World (list Expense)),
    [expenseWithID 1; expenseWithID 2] !! i = Some e ∧ ID e = 2 ∧
    serve_all (RT := plainRuntime)
      [(RouteUpdate, putRequest 2 (mkExpense 0 "tea" 300 0 0));
       (RouteUpdate, putRequest 2 (mkExpense 0 "milk" 120 0 0))]
      (worldOf [expenseWithID 1; expenseWithID 2])
    = ([OkExpenses l1; OkExpenses l2], w') ∧
    l2 = <[i := {| ID := ID e;
                   Description := "milk";
                   Amount := 120;
                   CreatedAt := CreatedAt e;
                   UpdatedAt := 1 |}]> [expenseWithID 1; expenseWithID 2] ∧
    loadExpenses (RT := plainRuntime) w' = inr l2.
Proof.
  apply (update_last_write_wins (RT := plainRuntime)
           (worldOf [expenseWithID 1; expenseWithID 2])
           [expenseWithID 1; expenseWithID 2] 2
           (mkExpense 0 "tea" 300 0 0) (mkExpense 0 "milk" 120 0 0)
           plain_round_trip plain_marshal_total eq_refl eq_refl).
  apply list_elem_of_further, list_elem_of_here.
Defined.

(** ** What no request does *)

Lemma serve_frame {Doc : Type} {RT : Runtime Doc}
    (route : Route) (r : Request) (w : World Doc) :
  writable (serve route r w).2 = writable w ∧
  (ticks w ≤ ticks (serve route r w).2 ≤ ticks w + 2)%nat ∧
  (expenseFile (serve route r w).2 = expenseFile w
   ∨ (∃ expenses data,
        json_MarshalIndent expenses = Some data ∧
        expenseFile (serve route r w).2 = Present data ∧ writable w = true)
   ∨ (expenseFile (serve route r w).2 = Truncated ∧
      writable w = false ∧ os_writeFailureTruncates = true)).
Proof.
  destruct route; simpl.
  - rewrite listExpensesHandler_world. split_and!; [done|lia|lia|by left].
  - destruct (addExpenseHandler_outcome r w)
      as [(s & m & Hr & _)|(p & l & _ & _ & _ & [(d & Hm & Hw & Hr)|(f & Hr & Hf)])];
      rewrite Hr; simpl; split_and!; try done; try lia.
    + by left.
    + right; left. by eexists _, _.
    + destruct Hf as [->|(? & ? & ->)]; [by left|by right; right].
  - rewrite summaryExpensesHandler_world. split_and!; [done|lia|lia|by left].
  - destruct (updateExpenseHandler_outcome r w)
      as [(s & m & Hr & _)|(id & p & l & i & _ & _ & _ & _ & _ & [(d & Hm & Hw & Hr)|(f & Hr & Hf)])];
      rewrite Hr; simpl; split_and!; try done; try lia.
    + by left.
    + right; left. by eexists _, _.
    + destruct Hf as [->|(? & ? & ->)]; [by left|by right; right].
  - destruct (deleteExpenseHandler_outcome r w)
      as [(s & m & Hr & _)|(id & l & i & _ & _ & _ & _ & [(d & Hm & Hw & Hr)|(f & Hr & Hf)])];
      rewrite Hr; simpl; split_and!; try done; try lia.
    + by left.
    + right; left. by eexists _, _.
    + destruct Hf as [->|(? & ? & ->)]; [by left|by right; right].
Qed.

(** X14: after any sequence of requests the file is the one before, or
    holds the serialisation of a collection that the server wrote with
    the permission to write, or was left truncated by a write that failed
    after the truncation; no request removes it.  A request takes at most
    two clock readings. *)
Theorem requests_keep_the_file {Doc : Type} {RT : Runtime Doc}
    (reqs : list (Route * Request)) (w : World Doc) :
  (ticks w ≤ ticks (serve_all reqs w).2 ≤ ticks w + 2 * length reqs)%nat ∧
  (expenseFile (serve_all reqs w).2 = expenseFile w
   ∨ (∃ expenses data,
        json_MarshalIndent expenses = Some data ∧
        expenseFile (serve_all reqs w).2 = Present data ∧ writable w = true)
   ∨ (expenseFile (serve_all reqs w).2 = Truncated ∧
      writable w = false ∧ os_writeFailureTruncates = true)).
Proof.
  revert w. induction reqs as [|[route r] reqs IH]; intros w; simpl.
  - split_and!; [lia|lia|by left].
  - destruct (serve_frame route r w) as (Hw1 & Ht1 & Hf1).
    destruct (serve route r w) as [resp w1]. simpl in *.
    destruct (IH w1) as (Ht2 & Hf2).
    destruct (serve_all reqs w1) as [resps w2]. simpl in *.
    split_and!; [lia|lia|].
    rewrite Hw1 in Hf2.
    destruct Hf2 as [Hf2|[Hf2|Hf2]]; [|by right; left|by right; right].
    by rewrite Hf2.
Qed.

Lemma requests_keep_the_file_witness :
  (0 ≤ ticks (serve_all (RT := truncatingRuntime)
                [(RouteAdd, postRequest zeroExpense); (RouteList, getRequest)]
                (mkWorld (Present [expenseWithID 1]) false 0)).2 ≤ 0 + 2 * 2)%nat ∧
  (expenseFile (serve_all (RT := truncatingRuntime)
                  [(RouteAdd, postRequest zeroExpense); (RouteList, getRequest)]
                  (mkWorld (Present [expenseWithID 1]) false 0)).2
   = Present [expenseWithID 1]
   ∨ (∃ expenses data,
        Some expenses = Some data ∧
        expenseFile (serve_all (RT := truncatingRuntime)
                       [(RouteAdd, postRequest zeroExpense); (RouteList, getRequest)]
                       (mkWorld (Present [expenseWithID 1]) false 0)).2
        = Present data ∧ false = true)
   ∨ (expenseFile (serve_all (RT := truncatingRuntime)
                     [(RouteAdd, postRequest zeroExpense); (RouteList, getRequest)]
                     (mkWorld (Present [expenseWithID 1]) false 0)).2
      = Truncated ∧ false = false ∧ true = true)).
Proof.
  exact (requests_keep_the_file (RT := truncatingRuntime)
           [(RouteAdd, postRequest zeroExpense); (RouteList, getRequest)]
           (mkWorld (Present [expenseWithID 1]) false 0)).
Defined.

(** ** Timestamps *)

Lemma stamped_before_mono {Doc : Type} {RT : Runtime Doc}
    (n m : nat) (expenses : list Expense) :
  clock_monotone (RT := RT) → (n ≤ m)%nat →
  stamped_before n expenses → stamped_before m expenses.
Proof.
  intros Hmono Hnm Hst. unfold stamped_before in *.
  eapply Forall_impl; [exact Hst|].
  intros e [Hcu Hun]. split; [done|].
  pose proof (Hmono n m Hnm). lia.
Qed.

(** X15: with a clock that never goes back and a file that can be
    written, every request keeps the timestamps in order: if every record
    of the collection was created no later than it was updated, and updated
    no later than the next clock reading, the same holds after the
    request. *)
Theorem timestamps_stay_ordered {Doc : Type} {RT : Runtime Doc}
    (route : Route) (r : Request) (w : World Doc) (expenses : list Expense) :
  clock_monotone (RT := RT) → codec_round_trip (RT := RT) →
  loadExpenses w = inr expenses → writable w = true →
  stamped_before (ticks w) expenses →
  ∃ expenses',
    loadExpenses (serve route r w).2 = inr expenses' ∧
    stamped_before (ticks (serve route r w).2) expenses'.
Proof.
  intros Hmono Hround Hload Hw Hst.
  assert (∀ b n, loadExpenses (mkWorld (expenseFile w) b n) = inr expenses) as Hsame.
  { intros b n. rewrite <- Hload. by apply loadExpenses_file. }
  assert (∀ k, stamped_before (k + ticks w) expenses) as Hlater.
  { intros k. apply (stamped_before_mono (ticks w)); [done|lia|done]. }
  destruct route; simpl.
  - rewrite listExpensesHandler_world. by exists expenses.
  - destruct (addExpenseHandler_outcome r w)
      as [(s & m & Hr & _)|(p & l & _ & _ & Hl & [(d & Hm & _ & Hr)|(f & Hr & Hf)])];
      rewrite Hr; simpl.
    + by exists expenses.
    + rewrite Hload in Hl. injection Hl as <-.
      eexists. split; [apply loadExpenses_Present, Hround, Hm|].
      apply Forall_app. split; [apply (Hlater 2%nat)|].
      apply Forall_singleton. simpl.
      pose proof (Hmono (ticks w) (S (ticks w))).
      pose proof (Hmono (S (ticks w)) (S (S (ticks w)))). lia.
    + destruct Hf as [->|(? & _)]; [|congruence].
      exists expenses. split; [apply Hsame|apply (Hlater 2%nat)].
  - rewrite summaryExpensesHandler_world. by exists expenses.
  - destruct (updateExpenseHandler_outcome r w)
      as [(s & m & Hr & _)|(id & p & l & i & _ & _ & _ & Hl & _ & [(d & Hm & _ & Hr)|(f & Hr & Hf)])];
      rewrite Hr; simpl.
    + by exists expenses.
    + rewrite Hload in Hl. injection Hl as <-.
      eexists. split; [apply loadExpenses_Present, Hround, Hm|].
      apply Forall_alter; [apply (Hlater 1%nat)|].
      intros e He _. unfold stamped_before in Hst.
      rewrite Forall_lookup in Hst. destruct (Hst i e He) as [Hcu Hun].
      simpl. split; [lia|]. apply Hmono. lia.
    + destruct Hf as [->|(? & _)]; [|congruence].
      exists expenses. split; [apply Hsame|apply (Hlater 1%nat)].
  - destruct (deleteExpenseHandler_outcome r w)
      as [(s & m & Hr & _)|(id & l & i & _ & _ & Hl & _ & [(d & Hm & _ & Hr)|(f & Hr & Hf)])];
      rewrite Hr; simpl.
    + by exists expenses.
    + rewrite Hload in Hl. injection Hl as <-.
      eexists. split; [apply loadExpenses_Present, Hround, Hm|].
      rewrite remove_at_delete. by apply Forall_delete.
    + destruct Hf as [->|(? & _)]; [|congruence].
      exists expenses. split; [apply Hsame|done].
Qed.

Lemma plain_clock_monotone : clock_monotone (RT := plainRuntime).
Proof. intros i j Hij. simpl. lia. Qed.

Lemma timestamps_stay_ordered_witness :
  ∃ expenses',
    loadExpenses (RT := plainRuntime)
      (serve (RT := plainRuntime) RouteUpdate (putRequest 1 (mkExpense 0 "tea" 300 0 0))
         (mkWorld (Present [mkExpense 1 "coffee" 350 0 1]) true 2)).2
    = inr expenses' ∧
    stamped_before (RT := plainRuntime)
      (ticks (serve (RT := plainRuntime) RouteUpdate
                (putRequest 1 (mkExpense 0 "tea" 300 0 0))
                (mkWorld (Present [mkExpense 1 "coffee" 350 0 1]) true 2)).2)
      expenses'.
Proof.
  apply (timestamps_stay_ordered (RT := plainRuntime) RouteUpdate
           (putRequest 1 (mkExpense 0 "tea" 300 0 0))
           (mkWorld (Present [mkExpense 1 "coffee" 350 0 1]) true 2)
           [mkExpense 1 "coffee" 350 0 1]
           plain_clock_monotone plain_round_trip eq_refl eq_refl).
  apply Forall_singleton. simpl. lia.
Defined.

(** ** A store that cannot be written *)

(** X16: when writing the file fails, every request to Create, Update or
    Delete is answered with an error.  If the write fails at the open, no
    request changes the file; if it fails after the truncation, the file is
    the one before or left truncated, and a Create, or a Delete of an id
    that is present, leaves it truncated: the store no longer loads. *)
Theorem unwritable_store_refuses_mutations {Doc : Type} {RT : Runtime Doc}
    (route : Route) (r : Request) (w : World Doc) :
  writable w = false →
  (read_only route = false →
   ∃ status message, (serve route r w).1 = HttpError status message) ∧
  (os_writeFailureTruncates = false →
   expenseFile (serve route r w).2 = expenseFile w) ∧
  (expenseFile (serve route r w).2 = expenseFile w
   ∨ expenseFile (serve route r w).2 = Truncated) ∧
  (os_writeFailureTruncates = true → marshal_total (RT := RT) →
   ∀ expenses, loadExpenses w = inr expenses →
     (∀ payload,
        addExpenseHandler (postRequest payload) w
        = (HttpError StatusInternalServerError "Error saving expense",
           mkWorld Truncated false (S (S (ticks w))))) ∧
     (∀ id, id ∈ ids expenses →
        deleteExpenseHandler (deleteRequest id) w
        = (HttpError StatusInternalServerError "Error saving expenses",
           mkWorld Truncated false (ticks w))) ∧
     (∀ b n, loadExpenses (mkWorld (Doc := Doc) Truncated b n) = inl UnmarshalError)).
Proof.
  intros Hw. split_and!.
  - intros Hmut. destruct route; simpl in *; try done.
    + destruct (addExpenseHandler_outcome r w)
        as [(s & m & Hr & _)|(p & l & _ & _ & _ & [(d & _ & Hw' & Hr)|(f & Hr & _)])];
        [|congruence|]; rewrite Hr; by eexists _, _.
    + destruct (updateExpenseHandler_outcome r w)
        as [(s & m & Hr & _)|(id & p & l & i & _ & _ & _ & _ & _ & [(d & _ & Hw' & Hr)|(f & Hr & _)])];
        [|congruence|]; rewrite Hr; by eexists _, _.
    + destruct (deleteExpenseHandler_outcome r w)
        as [(s & m & Hr & _)|(id & l & i & _ & _ & _ & _ & [(d & _ & Hw' & Hr)|(f & Hr & _)])];
        [|congruence|]; rewrite Hr; by eexists _, _.
  - intros Hopen.
    destruct (serve_frame route r w) as (_ & _ & [Hf|[(l & d & _ & _ & Hw')|(_ & _ & Htr)]]);
      [done|congruence|congruence].
  - destruct (serve_frame route r w) as (_ & _ & [Hf|[(l & d & _ & _ & Hw')|(Hf & _)]]);
      [by left|congruence|by right].
  - intros Htr Htotal expenses Hload. split_and!.
    + intros payload.
      destruct (Htotal (expenses ++ [new_expense expenses payload w])) as [data Hm].
      unfold addExpenseHandler. simpl. rewrite Hload. simpl.
      unfold saveExpenses, os_WriteFile, failed_write. simpl.
      change (set_UpdatedAt _ _) with (new_expense expenses payload w).
      by rewrite Hm, Hw, Htr.
    + intros id Hin.
      destruct (find_index_is_Some id expenses Hin) as [i Hfind].
      destruct (Htotal (remove_at i expenses)) as [data Hm].
      unfold deleteExpenseHandler. simpl. rewrite Hload, Hfind. simpl.
      unfold saveExpenses, os_WriteFile, failed_write.
      by rewrite Hm, Hw, Htr.
    + done.
Qed.

Lemma unwritable_store_refuses_mutations_witness :
  (∃ status message,
     (serve (RT := truncatingRuntime) RouteDelete (deleteRequest 1)
        (mkWorld (Present [expenseWithID 1]) false 0)).1
     = HttpError status message) ∧
  deleteExpenseHandler (RT := truncatingRuntime) (deleteRequest 1)
    (mkWorld (Present [expenseWithID 1]) false 0)
  = (HttpError StatusInternalServerError "Error saving expenses",
     mkWorld Truncated false 0) ∧
  expenseFile
    (serve (RT := plainRuntime) RouteDelete (deleteRequest 1)
       (mkWorld (Present [expenseWithID 1]) false 0)).2
  = Present [expenseWithID 1].
Proof.
  destruct (unwritable_store_refuses_mutations (RT := truncatingRuntime) RouteDelete
              (deleteRequest 1) (mkWorld (Present [expenseWithID 1]) false 0) eq_refl)
    as (Herr & _ & _ & Htrunc).
  destruct (unwritable_store_refuses_mutations (RT := plainRuntime) RouteDelete
              (deleteRequest 1) (mkWorld (Present [expenseWithID 1]) false 0) eq_refl)
    as (_ & Hopen & _).
  split_and!.
  - exact (Herr eq_refl).
  - destruct (Htrunc eq_refl (λ l, ex_intro _ l eq_refl) [expenseWithID 1] eq_refl)
      as (_ & Hdel & _).
    apply (Hdel 1). apply list_elem_of_here.
  - exact (Hopen eq_refl).
Defined.

(** ** The order of the records and the total *)

Lemma sum_amounts_Permutation (l1 l2 : list Expense) :
  l1 ≡ₚ l2 → sum_amounts l1 = sum_amounts l2.
Proof.
  unfold sum_amounts. induction 1 as [|e l l' _ IH|e1 e2 l|l l' l'' _ IH1 _ IH2]; simpl.
  - done.
  - by rewrite IH.
  - lia.
  - by rewrite IH1.
Qed.

(** X17: the total of Summary does not depend on the order of the records,
    whether the additions overflow or not. *)
Theorem summary_order_independent {Doc : Type} {RT : Runtime Doc}
    (w1 w2 : World Doc) (l1 l2 : list Expense) :
  loadExpenses w1 = inr l1 → loadExpenses w2 = inr l2 → l1 ≡ₚ l2 →
  (summaryExpensesHandler getRequest w1).1 = (summaryExpensesHandler getRequest w2).1.
Proof.
  intros Hl1 Hl2 Hperm. unfold summaryExpensesHandler. simpl.
  rewrite Hl1, Hl2. simpl.
  by rewrite !totalSum_loop_wrap, (sum_amounts_Permutation l1 l2 Hperm).
Qed.

Lemma summary_order_independent_witness :
  (summaryExpensesHandler (RT := plainRuntime) getRequest
     (worldOf [expenseWithAmount 1 GoInt.MaxInt; expenseWithAmount 2 1;
               expenseWithAmount 3 (-5)])).1
  = (summaryExpensesHandler (RT := plainRuntime) getRequest
       (worldOf [expenseWithAmount 3 (-5); expenseWithAmount 1 GoInt.MaxInt;
                 expenseWithAmount 2 1])).1.
Proof.
  apply (summary_order_independent (RT := plainRuntime)
           (worldOf [expenseWithAmount 1 GoInt.MaxInt; expenseWithAmount 2 1;
                     expenseWithAmount 3 (-5)])
           (worldOf [expenseWithAmount 3 (-5); expenseWithAmount 1 GoInt.MaxInt;
                     expenseWithAmount 2 1])
           [expenseWithAmount 1 GoInt.MaxInt; expenseWithAmount 2 1;
            expenseWithAmount 3 (-5)]
           [expenseWithAmount 3 (-5); expenseWithAmount 1 GoInt.MaxInt;
            expenseWithAmount 2 1] eq_refl eq_refl).
  symmetry.
  apply (Permutation_cons_append
           [expenseWithAmount 1 GoInt.MaxInt; expenseWithAmount 2 1]
           (expenseWithAmount 3 (-5))).
Defined.

Lemma not_found_exactly_when_absent_witness :
  (updateExpenseHandler (RT := plainRuntime) (putRequest 7 zeroExpense)
     (worldOf [expenseWithID 1])).1
  = HttpError StatusNotFound "Expense not found" ∧
  (deleteExpenseHandler (RT := plainRuntime) (deleteRequest 7)
     (worldOf [expenseWithID 1])).1
  = HttpError StatusNotFound "Expense not found".
Proof.
  assert (7 ∉ ids [expenseWithID 1]) as Habsent.
  { intros Hin. by apply list_elem_of_singleton in Hin. }
  split.
  - apply (not_found_exactly_when_absent (RT := plainRuntime)
             (putRequest 7 zeroExpense) (worldOf [expenseWithID 1])).
    exists 7, zeroExpense, [expenseWithID 1]. by split_and!.
  - apply (not_found_exactly_when_absent (RT := plainRuntime)
             (deleteRequest 7) (worldOf [expenseWithID 1])).
    exists 7, [expenseWithID 1]. by split_and!.
Defined.
